(** * Path validators of [provisioner/commands/validator/validator.py]

    A shallow embedding of the validator classes ([FileValidator],
    [DirValidator], [FileSchemeValidator], [HashSumValidator],
    [ContentFileValidator]) and of the content-scheme classes
    ([FileContentScheme], [ReleaseInfoContentScheme]), followed by the
    properties established about them.

    Python exceptions are values of type [exn]; a call either returns or
    raises.  The file system is a function from paths to nodes; it is never
    written to.  The dictionary handed to [from_args] is mutated by the
    source, so that function is written in state-passing style and lifted
    to a store of shared objects. *)

From Stdlib Require Import ZArith String Ascii List Bool Lia.
From stdpp Require Import base option list strings pretty gmap.

Local Open Scope string_scope.

Set Warnings "-register-all".

(** ** Bytes *)

Definition bytes := list Byte.byte.

Fixpoint bytes_eqb (a b : bytes) : bool :=
  match a, b with
  | [], [] => true
  | x :: a', y :: b' => Byte.eqb x y && bytes_eqb a' b'
  | _, _ => false
  end.

(** [hmac.compare_digest a b] on two bytes objects: [a == b], computed in
    time independent of the position of the first difference. *)
Definition compare_digest (a b : bytes) : bool := bytes_eqb a b.

(** ** [pathlib.Path] *)

(** A path is its list of components, anchored at the root or not. *)
Record Path := mkPath { anchored : bool; parts : list string }.

(** [p / q]: an anchored right operand replaces the left one. *)
Definition path_join (p q : Path) : Path :=
  if anchored q then q else mkPath (anchored p) (parts p ++ parts q).

Notation "p // q" := (path_join p q) (at level 40, left associativity).

(** ** The file system, as [Path.exists], [is_file], [is_dir] and [open]
    see it (symbolic links are followed) *)

Inductive node :=
| Missing
| RegularFile (content : bytes)
| Directory
| Special.

Definition filesystem := Path -> node.

Definition path_exists (fs : filesystem) (p : Path) : bool :=
  match fs p with Missing => false | _ => true end.

Definition is_file (fs : filesystem) (p : Path) : bool :=
  match fs p with RegularFile _ => true | _ => false end.

Definition is_dir (fs : filesystem) (p : Path) : bool :=
  match fs p with Directory => true | _ => false end.

(** ** Python values produced by the content loaders *)

Inductive pyval :=
| VNone
| VBool (b : bool)
| VInt (z : Z)
| VStr (s : string)
| VList (l : list pyval)
| VDict (d : list (string * pyval)).

(** A [dict] is insertion ordered and has no two entries with one key. *)
Abbreviation pydict := (list (string * pyval)).

Definition keys (d : pydict) : list string := map fst d.

Definition dict_wf (d : pydict) : Prop := NoDup (keys d).

Fixpoint dict_get (k : string) (d : pydict) : option pyval :=
  match d with
  | [] => None
  | (k', v) :: d' => if String.eqb k k' then Some v else dict_get k d'
  end.

(** [d.pop(k)]: the value bound to [k] and the dictionary without that
    entry; [None] stands for [KeyError]. *)
Fixpoint dict_pop (k : string) (d : pydict) : option (pyval * pydict) :=
  match d with
  | [] => None
  | (k', v) :: d' =>
      if String.eqb k k' then Some (v, d')
      else match dict_pop k d' with
           | Some (x, d'') => Some (x, (k', v) :: d'')
           | None => None
           end
  end.

Inductive pytype := TNoneType | TBool | TInt | TStr | TList | TDict.

Definition type_of (v : pyval) : pytype :=
  match v with
  | VNone => TNoneType
  | VBool _ => TBool
  | VInt _ => TInt
  | VStr _ => TStr
  | VList _ => TList
  | VDict _ => TDict
  end.

(** [isinstance(v, t)]; [bool] is a subclass of [int]. *)
Definition isinstance (v : pyval) (t : pytype) : bool :=
  match type_of v, t with
  | TNoneType, TNoneType | TBool, TBool | TInt, TInt | TStr, TStr
  | TList, TList | TDict, TDict => true
  | TBool, TInt => true
  | _, _ => false
  end.

(** *** The builtin [str] *)

Definition dquote : ascii := ascii_of_nat 34.
Definition squote : ascii := ascii_of_nat 39.
Definition bslash : ascii := ascii_of_nat 92.

Fixpoint str_contains (c : ascii) (s : string) : bool :=
  match s with
  | EmptyString => false
  | String c' s' => Ascii.eqb c c' || str_contains c s'
  end.

Definition hex_digit (n : nat) : ascii :=
  if Nat.ltb n 10 then ascii_of_nat (48 + n) else ascii_of_nat (87 + n).

(** One character of [repr] of a string delimited by [q]. *)
Definition repr_char (q c : ascii) : string :=
  let n := nat_of_ascii c in
  if Ascii.eqb c q || Ascii.eqb c bslash then String bslash (String c "")
  else if Nat.eqb n 9 then String bslash "t"
  else if Nat.eqb n 10 then String bslash "n"
  else if Nat.eqb n 13 then String bslash "r"
  else if Nat.ltb n 32 || Nat.eqb n 127 then
    String bslash (String "x"
      (String (hex_digit (n / 16)) (String (hex_digit (n mod 16)) "")))
  else String c "".

Fixpoint repr_chars (q : ascii) (s : string) : string :=
  match s with
  | EmptyString => ""
  | String c s' => repr_char q c +:+ repr_chars q s'
  end.

(** [repr] of a string: single quotes, unless the text holds a single
    quote and no double quote.  Characters above 127 are taken to be
    printable. *)
Definition repr_str (s : string) : string :=
  let q := if str_contains squote s && negb (str_contains dquote s)
           then dquote else squote in
  String q (repr_chars q s +:+ String q "").

Fixpoint join (sep : string) (l : list string) : string :=
  match l with
  | [] => ""
  | [x] => x
  | x :: l' => x +:+ sep +:+ join sep l'
  end.

Fixpoint py_repr (v : pyval) : string :=
  match v with
  | VNone => "None"
  | VBool true => "True"
  | VBool false => "False"
  | VInt z => pretty z
  | VStr s => repr_str s
  | VList l => "[" +:+ join ", " (map py_repr l) +:+ "]"
  | VDict d =>
      "{" +:+ join ", "
        (map (fun kv => repr_str (fst kv) +:+ ": " +:+ py_repr (snd kv)) d)
      +:+ "}"
  end.

(** [str(v)]: the text itself for a string, [repr(v)] otherwise. *)
Definition py_str (v : pyval) : string :=
  match v with
  | VStr s => s
  | _ => py_repr v
  end.

(** ** Regular expressions, as far as the schemes use them

    A pattern is a sequence of items: the anchors [^] and [$], a literal
    character, and [[lo-hi]+].  [re_fullmatch] is [re.fullmatch] without
    flags: the whole text has to be consumed; [^] holds at the start of
    the text, [$] at its end or just before a final newline. *)

Inductive re_item :=
| Bol
| Eol
| Lit (c : ascii)
| PlusRange (lo hi : ascii).

Definition regex := list re_item.

Definition in_range (lo hi c : ascii) : bool :=
  Nat.leb (nat_of_ascii lo) (nat_of_ascii c)
  && Nat.leb (nat_of_ascii c) (nat_of_ascii hi).

Definition newline : ascii := ascii_of_nat 10.

Definition at_eol (s : string) : bool :=
  match s with
  | EmptyString => true
  | String c EmptyString => Ascii.eqb c newline
  | _ => false
  end.

Fixpoint re_match (r : regex) (at_start : bool) (s : string) : bool :=
  match r with
  | [] => match s with EmptyString => true | _ => false end
  | Bol :: r' => at_start && re_match r' at_start s
  | Eol :: r' => at_eol s && re_match r' at_start s
  | Lit c :: r' =>
      match s with
      | String c' s' => Ascii.eqb c c' && re_match r' false s'
      | EmptyString => false
      end
  | PlusRange lo hi :: r' =>
      (fix plus (s : string) : bool :=
         match s with
         | String c s' => in_range lo hi c && (re_match r' false s' || plus s')
         | EmptyString => false
         end) s
  end.

Definition re_fullmatch (r : regex) (s : string) : bool := re_match r true s.

(** ** Exceptions *)

Inductive type_error :=
| MissingArguments (names : list string)
| TooManyPositional (takes given : nat)
| UnexpectedKeyword (name : string)
| NotInstanceOf (field : string) (t : pytype) (v : pyval)
| ExpectedString (v : pyval).

Inductive exn :=
| ValidationError (r : reason)
| TypeError (d : type_error)
| ValueError (field : string) (pattern : regex) (v : string)
| AttributeError (obj attribute : string)
| FileNotFoundError (p : Path)
| IsADirectoryError (p : Path)
| OSError (p : Path)
| DecodeError
| KeyError
(** The reason of a [ValidationError], one constructor per message of
    the module. *)
with reason :=
| FileShouldExist (p : Path)
| NotARegularFile (p : Path)
| NotADirectory (p : Path)
| HashMismatch (p : Path) (actual expected : bytes)
| ContentValidationFailed (cause : exn)
| UnexpectedTopLevelType (t : pytype).

(** [except TypeError] *)
Definition is_TypeError (e : exn) : bool :=
  match e with TypeError _ => true | _ => false end.

Definition is_ValidationError (e : exn) : bool :=
  match e with ValidationError _ => true | _ => false end.

(** A computation that returns a value or raises. *)
Inductive result (A : Type) :=
| Return (a : A)
| Raise (e : exn).
Arguments Return {A} a.
Arguments Raise {A} e.

Definition bind {A B} (m : result A) (k : A -> result B) : result B :=
  match m with Return a => k a | Raise e => Raise e end.

Notation "'let*' x ':=' m 'in' k" := (bind m (fun x => k))
  (at level 10, x name, m at level 100, k at level 200).

Definition succeeds {A} (m : result A) : bool :=
  match m with Return _ => true | Raise _ => false end.

(** ** Classes declared with [attr.s]

    The [attr] package is vendored with the provisioner and is not part of
    the sources at hand; the generated [__init__] and the validators used
    by the schemes are written after the package's documented behaviour:
    arguments are bound first (a missing or surplus argument is a
    [TypeError]), then every attribute is converted and assigned in
    declaration order, then the validators run in declaration order and
    the first one that fails raises.  [instance_of] raises [TypeError],
    [matches_re] raises [ValueError] (it uses [re.fullmatch]), and
    [optional] lets [None] through. *)

Inductive attr_validator :=
| instance_of (t : pytype)
| matches_re (r : regex)
| optional (v : attr_validator).

Record attribute := attr_ib {
  attr_name : string;
  attr_validator_of : attr_validator;
  attr_converter : option (pyval -> pyval);
  attr_default : option pyval
}.

Record attrs_class := attr_s {
  class_name : string;
  fields : list attribute
}.

(** [attr.fields_dict(cls)], as the list of its keys. *)
Definition fields_dict (cls : attrs_class) : list string :=
  map attr_name (fields cls).

Fixpoint run_validator (field : string) (v : attr_validator) (value : pyval)
  : result unit :=
  match v with
  | instance_of t =>
      if isinstance value t then Return tt
      else Raise (TypeError (NotInstanceOf field t value))
  | matches_re r =>
      match value with
      | VStr s =>
          if re_fullmatch r s then Return tt else Raise (ValueError field r s)
      | _ => Raise (TypeError (ExpectedString value))
      end
  | optional v' =>
      match value with
      | VNone => Return tt
      | _ => run_validator field v' value
      end
  end.

(** The two ways [from_args] calls a class: with the items of a list as
    positional arguments, and with the entries of a dictionary as keyword
    arguments. *)
Inductive call_args :=
| Positional (args : list pyval)
| Keywords (kwargs : pydict).

Definition mem (k : string) (ks : list string) : bool :=
  existsb (String.eqb k) ks.

(** Binding of keyword arguments: the value given, else the default. *)
Definition bind_keywords (fs : list attribute) (kw : pydict)
  : result (list (attribute * pyval)) :=
  match filter (fun k => negb (mem k (map attr_name fs))) (keys kw) with
  | k :: _ => Raise (TypeError (UnexpectedKeyword k))
  | [] =>
      match filter (fun a => negb (mem (attr_name a) (keys kw))
                             && negb (bool_decide (is_Some (attr_default a))))
                   fs with
      | (_ :: _) as missing =>
          Raise (TypeError (MissingArguments (map attr_name missing)))
      | [] =>
          Return
            (omap (fun a =>
                     match dict_get (attr_name a) kw with
                     | Some v => Some (a, v)
                     | None => (fun v => (a, v)) <$> attr_default a
                     end) fs)
      end
  end.

(** Binding of positional arguments, in declaration order. *)
Fixpoint zip_positional (fs : list attribute) (args : list pyval)
  : list (attribute * option pyval) :=
  match fs, args with
  | [], _ => []
  | a :: fs', [] => (a, attr_default a) :: zip_positional fs' []
  | a :: fs', v :: args' => (a, Some v) :: zip_positional fs' args'
  end.

Definition bind_positional (fs : list attribute) (args : list pyval)
  : result (list (attribute * pyval)) :=
  if Nat.ltb (length fs) (length args)
  then Raise (TypeError (TooManyPositional (length fs) (length args)))
  else
    let z := zip_positional fs args in
    match filter (fun av => negb (bool_decide (is_Some (snd av)))) z with
    | (_ :: _) as missing =>
        Raise (TypeError (MissingArguments (map (fun av => attr_name (fst av)) missing)))
    | [] => Return (omap (fun av => (fun v => (fst av, v)) <$> snd av) z)
    end.

Definition convert (av : attribute * pyval) : attribute * pyval :=
  match attr_converter (fst av) with
  | Some f => (fst av, f (snd av))
  | None => av
  end.

Fixpoint run_validators (avs : list (attribute * pyval)) : result unit :=
  match avs with
  | [] => Return tt
  | (a, v) :: avs' =>
      let* _ := run_validator (attr_name a) (attr_validator_of a) v in
      run_validators avs'
  end.

(** An instance: the name of its class, its attribute values, and the
    dictionary assigned through the [_unexpected_attributes] property
    ([None] until it is set). *)
Record instance := mkInstance {
  class_of : string;
  attrs : list (string * pyval);
  unexpected_attrs : option pydict
}.

Definition set_unexpected_attributes (obj : instance) (args : pydict)
  : instance :=
  mkInstance (class_of obj) (attrs obj) (Some args).

Definition get_unexpected_attributes (obj : instance) : option pydict :=
  unexpected_attrs obj.

(** The generated [__init__]. *)
Definition attrs_init (cls : attrs_class) (a : call_args) : result instance :=
  let* bound := match a with
                | Positional args => bind_positional (fields cls) args
                | Keywords kw => bind_keywords (fields cls) kw
                end in
  let converted := map convert bound in
  let* _ := run_validators converted in
  Return (mkInstance (class_name cls)
            (map (fun av => (attr_name (fst av), snd av)) converted) None).

(** ** [FileContentScheme] *)

(** [unexpected_attrs[k] = v] *)
Fixpoint dict_set (k : string) (v : pyval) (d : pydict) : pydict :=
  match d with
  | [] => [(k, v)]
  | (k', v') :: d' =>
      if String.eqb k k' then (k, v) :: d' else (k', v') :: dict_set k v d'
  end.

(** [data.keys() - set(a for a in attr.fields_dict(cls))].  The source
    gets a set, whose order of iteration is not specified; the keys are
    listed here in the order of [data] (see [pop_unexpected_order]). *)
Definition undeclared_keys (cls : attrs_class) (data : pydict) : list string :=
  filter (fun k => negb (mem k (fields_dict cls))) (keys data).

(** The entries of [data] whose key is declared by [cls], and the others,
    each in the order of [data]. *)
Definition declared_part (cls : attrs_class) (data : pydict) : pydict :=
  filter (fun kv => mem (fst kv) (fields_dict cls)) data.

Definition undeclared_part (cls : attrs_class) (data : pydict) : pydict :=
  filter (fun kv => negb (mem (fst kv) (fields_dict cls))) data.

(** The entries of [data] under the keys [ks], in the order of [ks]. *)
Definition entries_of (d : pydict) (ks : list string) : pydict :=
  (fun k => (k, default VNone (dict_get k d))) <$> ks.

(** The loop of [from_args]: every key of [ks] is popped from [data] and
    stored in [unexpected_attrs].  The first component is [data] when the
    loop ends, whether normally or by the [KeyError] of a [pop]. *)
Fixpoint pop_unexpected (ks : list string) (unexpected_attrs data : pydict)
  : pydict * option pydict :=
  match ks with
  | [] => (data, Some unexpected_attrs)
  | k :: ks' =>
      match dict_pop k data with
      | Some (v, data') => pop_unexpected ks' (dict_set k v unexpected_attrs) data'
      | None => (data, None)
      end
  end.

(** [cls.from_args(data)].  The dictionary passed in is modified in
    place: the first component is the value of the object [data] refers
    to when the call ends. *)
Definition from_args (cls : attrs_class) (data : pyval)
  : pyval * result instance :=
  match data with
  | VDict d =>
      match pop_unexpected (undeclared_keys cls d) [] d with
      | (d', Some unexpected_attrs) =>
          (VDict d',
           let* obj := attrs_init cls (Keywords d') in
           Return (set_unexpected_attributes obj unexpected_attrs))
      | (d', None) => (VDict d', Raise (KeyError))
      end
  | VList l =>
      (data,
       let* obj := attrs_init cls (Positional l) in
       Return (set_unexpected_attributes obj []))
  | _ => (data, Raise (ValidationError (UnexpectedTopLevelType (type_of data))))
  end.

(** The caller's view: [data] is a reference into a store of objects,
    and every other reference to the same object sees the change. *)
Abbreviation loc := positive.

Definition from_args_at (cls : attrs_class) (l : loc) (st : gmap loc pyval)
  : option (gmap loc pyval * result instance) :=
  match st !! l with
  | Some data =>
      let '(data', r) := from_args cls data in Some (<[l := data']> st, r)
  | None => None
  end.

(** The base class declares no attribute. *)
Definition FileContentScheme : attrs_class := attr_s "FileContentScheme" [].

(** ** [ReleaseInfoContentScheme] *)

Definition digit_run : re_item := PlusRange "0" "9".

(** ["^[0-9]+\.[0-9]+\.[0-9]+$"] *)
Definition VERSION_RE : regex :=
  [Bol; digit_run; Lit "."; digit_run; Lit "."; digit_run; Eol].

(** ["^[0-9]+$"] *)
Definition BUILD_RE : regex := [Bol; digit_run; Eol].

Definition converter_str : option (pyval -> pyval) :=
  Some (fun v => VStr (py_str v)).

Definition NAME : attribute :=
  attr_ib "NAME" (instance_of TStr) None None.
Definition VERSION : attribute :=
  attr_ib "VERSION" (matches_re VERSION_RE) converter_str None.
Definition BUILD : attribute :=
  attr_ib "BUILD" (matches_re BUILD_RE) converter_str None.
Definition OS : attribute :=
  attr_ib "OS" (instance_of TStr) None None.
Definition COMPONENTS : attribute :=
  attr_ib "COMPONENTS" (instance_of TList) None None.
Definition RELEASE : attribute :=
  attr_ib "RELEASE" (optional (instance_of TStr)) None (Some VNone).

Definition ReleaseInfoContentScheme : attrs_class :=
  attr_s "ReleaseInfoContentScheme"
         [NAME; VERSION; BUILD; OS; COMPONENTS; RELEASE].

(** ** The field formats in the words of the specification *)

Fixpoint string_forall (P : ascii -> bool) (s : string) : bool :=
  match s with
  | EmptyString => true
  | String c s' => P c && string_forall P s'
  end.

(** A decimal digit, [0] to [9]. *)
Definition is_digit (c : ascii) : bool :=
  Nat.leb 48 (nat_of_ascii c) && Nat.leb (nat_of_ascii c) 57.

(** One or more digits. *)
Definition is_digits (s : string) : bool :=
  match s with
  | EmptyString => false
  | _ => string_forall is_digit s
  end.

(** Three runs of digits separated by dots. *)
Definition three_dot_separated_digit_runs (s : string) : Prop :=
  exists a b c,
    is_digits a = true /\ is_digits b = true /\ is_digits c = true
    /\ s = a +:+ "." +:+ b +:+ "." +:+ c.

(** What the generated [__init__] does with the value given for one
    attribute: convert it, then run the validator of the attribute. *)
Definition field_accepts (a : attribute) (v : pyval) : bool :=
  succeeds (run_validator (attr_name a) (attr_validator_of a)
                          (snd (convert (a, v)))).

(** The content of a [RELEASE.INFO] file without the optional field. *)
Definition release_info (name version build os components : pyval) : pyval :=
  VDict [("NAME", name); ("VERSION", version); ("BUILD", build);
         ("OS", os); ("COMPONENTS", components)].

(** ** Enumerations of [provisioner.config] *)

(** Modelled from the spec: [config.ContentType] is not among the sources;
    the spec names a YAML-like and a JSON-like content type. *)
Inductive ContentType := YAML | JSON.

(** Modelled from the spec: [config.HashType] is not among the sources;
    the spec lists the digest algorithms MD5, SHA1 and SHA256, MD5 being
    the default. *)
Inductive HashType := MD5 | SHA1 | SHA256.

(** ** The validators *)

(** A validator object, by class, with the values of its attributes.
    [content_validator] is not an argument of the constructor ([None]
    until it is assigned, as [ReleaseInfoValidator] does); it is any
    callable in the source, and the callables the module attaches are
    path validators, invoked through [__call__].  The keys of a scheme
    are paths already. *)
Inductive PathValidator :=
| FileValidator (required : bool) (content_validator : option PathValidator)
| DirValidator (files_scheme : option (list (Path * PathValidator)))
               (required : bool)
| FileSchemeValidator (scheme : option (list (Path * PathValidator)))
| HashSumValidator (required : bool) (content_validator : option PathValidator)
                   (hash_sum : bytes) (hash_type : HashType)
| ContentFileValidator (scheme : attrs_class) (content_type : ContentType).

(** [YumRepoDataValidator()] *)
Definition YumRepoDataValidator : PathValidator :=
  DirValidator (Some [(mkPath false ["repomd.xml"], FileValidator true None)])
               true.

(** [ReleaseInfoValidator(required, content_type)], after
    [__attrs_post_init__]. *)
Definition ReleaseInfoValidator (required : bool) (content_type : ContentType)
  : PathValidator :=
  FileValidator required
    (Some (ContentFileValidator ReleaseInfoContentScheme content_type)).

(** One entry of the call log: [validate] was entered on this validator
    with this path. *)
Definition call : Type := PathValidator * Path.

(** A run of [validate]: the calls of [validate] it made, in order, and
    how it ended. *)
Definition run : Type := list call * result unit.

Definition calls (r : run) : list call := fst r.
Definition outcome (r : run) : result unit := snd r.

(** [for x in items: body(x)] *)
Fixpoint for_each {A} (body : A -> run) (items : list A) : run :=
  match items with
  | [] => ([], Return tt)
  | x :: rest =>
      match body x with
      | (t, Return _) => let '(t', r) := for_each body rest in ((t ++ t')%list, r)
      | (t, Raise e) => (t, Raise e)
      end
  end.

(** [body] returns on [x]. *)
Definition returns {A} (body : A -> run) (x : A) : Prop :=
  outcome (body x) = Return tt.

(** The calls made by running [body] on the given items one after
    another. *)
Definition calls_of {A} (body : A -> run) (items : list A) : list call :=
  concat (map (fun x => calls (body x)) items).

Section Validate.

(** [hashlib]: the digest of a byte string under an algorithm. *)
Variable digest : HashType -> bytes -> bytes.

(** The decoders behind [utils.load_yaml] and [utils.load_json]:
    [None] when the bytes are malformed. *)
Variable decode : ContentType -> bytes -> option pyval.

Variable fs : filesystem.

(** [open(path, 'rb').read()] *)
Definition open_rb (path : Path) : result bytes :=
  match fs path with
  | RegularFile content => Return content
  | Missing => Raise (FileNotFoundError path)
  | Directory => Raise (IsADirectoryError path)
  | Special => Raise (OSError path)
  end.

(** Modelled from the spec: [utils.calc_hash] is not among the sources;
    it reads the file in chunks and returns its digest under the given
    algorithm. *)
Definition calc_hash (path : Path) (hash_type : HashType) : result bytes :=
  let* content := open_rb path in
  Return (digest hash_type content).

(** Modelled from the spec: [utils.load_yaml] and [utils.load_json] are
    not among the sources; the loader selected by the content type reads
    the bytes of the file and decodes them into a structured value. *)
Definition CONTENT_LOADER (content_type : ContentType) (path : Path)
  : result pyval :=
  let* content := open_rb path in
  match decode content_type content with
  | Some v => Return v
  | None => Raise DecodeError
  end.

(** The body of [FileValidator.validate]; [content] is the bound
    [validate] of the content validator, when there is one. *)
Definition FileValidator_validate (required : bool)
    (content : option (Path -> run)) (path : Path) : run :=
  if negb (path_exists fs path) then
    if required then ([], Raise (ValidationError (FileShouldExist path)))
    else ([], Return tt)
  else if negb (is_file fs path) then
    ([], Raise (ValidationError (NotARegularFile path)))
  else
    match content with
    | Some content_validator => content_validator path
    | None => ([], Return tt)
    end.

(** The body of [ContentFileValidator.validate].  The parsed content is
    a local object; what [from_args] does to it is not observable. *)
Definition ContentFileValidator_validate (scheme : attrs_class)
    (content_type : ContentType) (path : Path) : result unit :=
  match CONTENT_LOADER content_type path with
  | Raise e => Raise (ValidationError (ContentValidationFailed e))
  | Return content =>
      match snd (from_args scheme content) with
      | Raise e =>
          if is_TypeError e
          then Raise (ValidationError (ContentValidationFailed e))
          else Raise e
      | Return _ => Return tt
      end
  end.

(** [v.validate(path)], by dynamic dispatch on the class of [v]. *)
Fixpoint validate (v : PathValidator) (path : Path) {struct v} : run :=
  let '(t, r) :=
    match v with
    | FileValidator required content_validator =>
        FileValidator_validate required
          (option_map validate content_validator) path
    | DirValidator files_scheme required =>
        if negb (path_exists fs path) then
          if required
          then ([], Raise (ValidationError (FileShouldExist path)))
          else ([], Return tt)
        else if negb (is_dir fs path) then
          ([], Raise (ValidationError (NotADirectory path)))
        else
          match files_scheme with
          | Some ((_ :: _) as entries) =>
              for_each (fun e => validate (snd e) (path // fst e)) entries
          | _ => ([], Return tt)
          end
    | FileSchemeValidator scheme =>
        match scheme with
        | Some entries =>
            for_each (fun e => validate (snd e) (path // fst e)) entries
        | None => ([], Raise (AttributeError "NoneType" "items"))
        end
    | HashSumValidator required content_validator hash_sum hash_type =>
        let '(t, r) :=
          FileValidator_validate required
            (option_map validate content_validator) path in
        (t,
         let* _ := r in
         let* hash_obj := calc_hash path hash_type in
         if compare_digest hash_obj hash_sum then Return tt
         else Raise (ValidationError (HashMismatch path hash_obj hash_sum)))
    | ContentFileValidator scheme content_type =>
        ([], ContentFileValidator_validate scheme content_type path)
    end in
  ((v, path) :: t, r).

(** The run of the validator of a scheme entry below [root]. *)
Definition child (root : Path) (e : Path * PathValidator) : run :=
  validate (snd e) (root // fst e).

End Validate.

(** ** Sample inputs *)

Definition path_of (components : list string) : Path := mkPath false components.

(** A tree with a repository directory holding [repomd.xml], and a file
    [RELEASE.INFO]. *)
Definition sample_fs : filesystem :=
  fun p =>
    match p with
    | mkPath false ["repo"] => Directory
    | mkPath false ["repo"; "repomd.xml"] => RegularFile []
    | mkPath false ["RELEASE.INFO"] => RegularFile [Byte.x78]
    | _ => Missing
    end.

(** Release information with the given version. *)
Definition sample_release_info (version : string) : pyval :=
  release_info (VStr "x") (VStr version) (VStr "15") (VStr "linux")
               (VList [VStr "a"; VStr "b"]).

(** A decoder that reads every file as release information with the
    version ["2.0"], and a digest that is the content itself. *)
Definition sample_decode : ContentType -> bytes -> option pyval :=
  fun _ _ => Some (sample_release_info "2.0").

Definition sample_digest : HashType -> bytes -> bytes := fun _ content => content.

(** A scheme of three required files, the second of which is absent from
    [sample_fs]. *)
Definition sample_scheme : list (Path * PathValidator) :=
  [(path_of ["repomd.xml"], FileValidator true None);
   (path_of ["absent"], FileValidator true None);
   (path_of ["later"], FileValidator true None)].

(** A parsed mapping with two keys that [ReleaseInfoContentScheme] does
    not declare. *)
Definition sample_mapping : pydict :=
  [("FOO", VInt 3); ("NAME", VStr "x"); ("VERSION", VStr "2.0.1");
   ("BAR", VNone); ("BUILD", VInt 15); ("OS", VStr "linux");
   ("COMPONENTS", VList [VStr "a"; VStr "b"])].

(** ** Measures on validators and file systems *)

(** The number of validator objects in a validator. *)
Fixpoint size (v : PathValidator) : nat :=
  match v with
  | FileValidator _ cv | HashSumValidator _ cv _ _ =>
      S (match cv with Some c => size c | None => 0 end)
  | DirValidator sch _ | FileSchemeValidator sch =>
      S (match sch with
         | Some entries => list_sum (map (fun e => size (snd e)) entries)
         | None => 0
         end)
  | ContentFileValidator _ _ => 1
  end.

(** Two file systems agree on the given paths. *)
Definition agree (fs1 fs2 : filesystem) (paths : list Path) : Prop :=
  forall p, p ∈ paths -> fs1 p = fs2 p.

(** [Path("repomd.xml")] *)
Definition repomd : Path := mkPath false ["repomd.xml"].

(** The [ValueError] of [matches_re]: the text does not match the
    pattern. *)
Definition pattern_failure (e : exn) : Prop :=
  exists field r s, e = ValueError field r s /\ re_fullmatch r s = false.


(** The value bound to an attribute by keyword arguments. *)
Definition bound_value (kw : pydict) (a : attribute) : option pyval :=
  match dict_get (attr_name a) kw with
  | Some v => Some v
  | None => attr_default a
  end.

(** ** [GetSWUpgradeInfo.run]: the choice of the latest release

    When neither an ISO path nor a release is given, the command takes
    the release names from the pillar, removes the candidate entry and
    takes the maximum by parsed version. *)

(** The ways this part of the command fails. *)
Inductive command_error :=
| RemoveValueError
| MaxEmptyValueError
| InvalidVersion (s : string)
| MissingKey (k : string).

Inductive command_result (A : Type) :=
| Done (a : A)
| Failed (e : command_error).
Arguments Done {A} a.
Arguments Failed {A} e.

(** [l.remove(x)]: the list without the first occurrence of [x];
    [None] stands for the [ValueError] raised when there is none. *)
Fixpoint list_remove (x : string) (l : list string) : option (list string) :=
  match l with
  | [] => None
  | y :: l' =>
      if String.eqb y x then Some l'
      else (fun r => y :: r) <$> list_remove x l'
  end.

Section LatestRelease.

(** [packaging.version.parse], [None] when it raises [InvalidVersion], and
    the comparison [>] of parsed versions. *)
Context {V : Type}.
Variable parse : string -> option V.
Variable gt : V -> V -> bool.

(** The loop of [max(iterable, key=...)]: an item replaces the current
    maximum when its key is greater. *)
Fixpoint max_loop (maxitem : string) (maxval : V) (l : list string)
  : command_result string :=
  match l with
  | [] => Done maxitem
  | item :: l' =>
      match parse item with
      | None => Failed (InvalidVersion item)
      | Some val =>
          if gt val maxval then max_loop item val l'
          else max_loop maxitem maxval l'
      end
  end.

(** [max(l, key=version.parse)] *)
Definition max_by_version (l : list string) : command_result string :=
  match l with
  | [] => Failed MaxEmptyValueError
  | item :: l' =>
      match parse item with
      | None => Failed (InvalidVersion item)
      | Some val => max_loop item val l'
      end
  end.

(** [upgrade_releases.remove(REPO_CANDIDATE_NAME)] followed by
    [max(upgrade_releases, key=version.parse)]. *)
Definition latest_release (candidate : string) (upgrade_releases : list string)
  : command_result string :=
  match list_remove candidate upgrade_releases with
  | None => Failed RemoveValueError
  | Some rest => max_by_version rest
  end.

End LatestRelease.

(** ** The [cortx_setup] commands

    A command is embedded as the sequence of calls it makes to its
    collaborators (the salt client, the pillar, the configuration store
    and the logger) in a run in which each of them returns. *)

Inductive event :=
| LocalMinionId
| FunctionRun (fun_name : string) (fun_args : list string) (targets : string)
| ConfLoad (index url : string)
| ConfSet (index key : string) (value : pyval)
| ConfSave (index : string)
| PillarSetRun (key : string) (value : pyval) (targets : string) (local : bool)
| LogInfo (msg : string)
| LogError (msg : string).

(** [prvsnr_cluster_path], as the text the f-string gives. *)
Definition prvsnr_cluster_path : string :=
  "/opt/seagate/cortx_configs/provisioner_cluster.json".

(** [if value:] *)
Definition truthy (v : pyval) : bool :=
  match v with
  | VNone => false
  | VBool b => b
  | VInt z => negb (Z.eqb z 0)
  | VStr s => negb (String.eqb s "")
  | VList l => match l with [] => false | _ => true end
  | VDict d => match d with [] => false | _ => true end
  end.

(** A list of strings as a Python value. *)
Definition str_list (l : list string) : pyval := VList (VStr <$> l).

(** [NetworkConfig.get_machine_id]: the entry of the target in the
    result of [grains.get]; [None] stands for the [KeyError], which the
    method raises again. *)
Definition get_machine_id (result : pydict) (targets : string) : option pyval :=
  dict_get targets result.

(** [NetworkConfig.run] *)
Definition NetworkConfig_run (node_id : string) (grains : pydict)
    (transport_type interface_type network_type : option string)
    (interfaces : option (list string)) (private : bool)
  : list event * command_result unit :=
  let start := [LocalMinionId; FunctionRun "grains.get" ["machine_id"] node_id] in
  match get_machine_id grains node_id with
  | None => (start, Failed (MissingKey node_id))
  | Some machine_id =>
      (start
       ++ [ConfLoad "node_info_index" ("json://" +:+ prvsnr_cluster_path)]
       ++ match transport_type with
          | Some t =>
              [LogInfo ("Updating transport type to " +:+ t +:+ " in confstore");
               PillarSetRun
                 ("node_info/" +:+ node_id +:+ "/network/data/transport_type")
                 (VStr t) node_id true;
               ConfSet "node_info_index"
                 ("server_node>" +:+ py_str machine_id
                  +:+ ">network>data>transport_type")
                 (VStr t)]
          | None => []
          end
       ++ match interface_type with
          | Some t =>
              [LogInfo ("Updating interface type to " +:+ t +:+ " in confstore");
               PillarSetRun
                 ("node_info/" +:+ node_id +:+ "/network/data/interface_type")
                 (VStr t) node_id true;
               ConfSet "node_info_index"
                 ("server_node>" +:+ py_str machine_id
                  +:+ ">network>data>interface_type")
                 (VStr t)]
          | None => []
          end
       ++ match interfaces with
          | Some ifaces =>
              if bool_decide (network_type = Some "data") then
                let iface_key :=
                  if private then "private_interfaces" else "public_interfaces" in
                [LogInfo ("Updating " +:+ iface_key
                          +:+ " for data network in confstore");
                 PillarSetRun
                   ("node_info/" +:+ node_id +:+ "/network/data/" +:+ iface_key)
                   (str_list ifaces) node_id true;
                 ConfSet "node_info_index"
                   ("server_node>" +:+ py_str machine_id
                    +:+ ">network>data>" +:+ iface_key)
                   (str_list ifaces)]
              else if bool_decide (network_type = Some "mgmt") then
                [LogInfo
                   "Updating interfaces for management network in confstore";
                 PillarSetRun
                   ("node_info/" +:+ node_id +:+ "/network/mgmt/interfaces")
                   (str_list ifaces) node_id true;
                 ConfSet "node_info_index"
                   ("server_node>" +:+ py_str machine_id
                    +:+ ">network>management>interfaces")
                   (str_list ifaces)]
              else
                [LogError
                   "Network type should specified for provided interfaces"]
          | None => []
          end
       ++ [ConfSave "node_info_index"; LogInfo "Done"],
       Done tt)%list
  end.

(** The loop of [ClusterNetworkConfig.run] over its keyword arguments. *)
Fixpoint cluster_updates (node_id : string) (kwargs : pydict) : list event :=
  match kwargs with
  | [] => []
  | (key, value) :: rest =>
      (if truthy value then
         [LogInfo ("Updating " +:+ key +:+ " to " +:+ py_str value
                   +:+ " in confstore");
          PillarSetRun ("cluster/" +:+ key) value node_id true;
          ConfSet "node_info_index" ("cluster>" +:+ key) value]
       else [])
      ++ cluster_updates node_id rest
  end.

(** [ClusterNetworkConfig.run] *)
Definition ClusterNetworkConfig_run (node_id : string) (kwargs : pydict)
  : list event :=
  [LocalMinionId;
   ConfLoad "node_info_index" ("json://" +:+ prvsnr_cluster_path)]
  ++ cluster_updates node_id kwargs
  ++ [ConfSave "node_info_index"; LogInfo "Done"].

(** The pillar updates and the configuration-store updates of a run, in
    order. *)
Definition pillar_writes (t : list event) : list (string * pyval) :=
  omap (fun e => match e with
                 | PillarSetRun k v _ _ => Some (k, v)
                 | _ => None
                 end) t.

Definition conf_writes (t : list event) : list (string * pyval) :=
  omap (fun e => match e with
                 | ConfSet _ k v => Some (k, v)
                 | _ => None
                 end) t.

(** ** Further sample inputs *)

(** [sample_fs] with one more directory, which no sample scheme names. *)
Definition sample_fs_other : filesystem :=
  fun p =>
    match p with
    | mkPath false ["elsewhere"] => Directory
    | _ => sample_fs p
    end.

(** A stand-in for version parsing: the key of a release is the length
    of its name. *)
Definition sample_parse : string -> option nat := fun s => Some (String.length s).

Definition sample_gt : nat -> nat -> bool := fun a b => Nat.ltb b a.

Definition sample_releases : list string := ["1.0"; "candidate"; "2.0.10"; "1.2.3"].

Definition sample_grains : pydict := [("srvnode-1", VStr "abc123")].

(** * Properties *)

(** ** The loop over the entries of a scheme *)

Section ForEach.

Context {A : Type} (body : A -> run).

Lemma for_each_all_return items :
  Forall (returns body) items ->
  for_each body items = (calls_of body items, Return tt).
Proof.
  induction 1 as [|x items Hx _ IH]; [done|].
  unfold returns, outcome, calls_of in *. simpl.
  destruct (body x) as [t r]. simpl in *. subst r.
  rewrite IH. done.
Qed.

Lemma for_each_first_failure before x after e :
  Forall (returns body) before ->
  outcome (body x) = Raise e ->
  for_each body (before ++ x :: after)
  = ((calls_of body before ++ calls (body x))%list, Raise e).
Proof.
  intros Hbefore Hx. induction Hbefore as [|y before Hy _ IH].
  - unfold outcome, calls, calls_of in *. simpl.
    destruct (body x) as [t r]. simpl in *. by subst r.
  - unfold returns, outcome, calls_of in *. simpl.
    destruct (body y) as [t r]. simpl in *. subst r.
    rewrite IH. by rewrite app_assoc.
Qed.

End ForEach.

Lemma bytes_eqb_eq (a b : bytes) : bytes_eqb a b = true <-> a = b.
Proof.
  revert b; induction a as [|x a IH]; intros [|y b]; simpl; try easy.
  rewrite andb_true_iff, IH. split.
  - intros [H ->]. apply Byte.byte_dec_bl in H. by subst.
  - intros [= -> ->]. split; [by apply Byte.byte_dec_lb | done].
Qed.

Section ValidateProperties.

Variable digest : HashType -> bytes -> bytes.
Variable decode : ContentType -> bytes -> option pyval.
Variable fs : filesystem.

Local Abbreviation validate := (validate digest decode fs).
Local Abbreviation child := (child digest decode fs).

(** [validate] begins by logging its own call. *)
Lemma validate_calls_head v p :
  exists t, calls (validate v p) = (v, p) :: t.
Proof.
  unfold calls. destruct v; simpl;
    try match goal with
        | |- context [let '(_, _) := ?x in _] => destruct x
        end;
    simpl; eauto.
Qed.

(** C7: on a path that does not exist, a [FileValidator] that is not
    required returns, and one that is required raises the
    [ValidationError] saying that the file should exist; the content
    validator plays no part. *)
Theorem FileValidator_missing_path content_validator p :
  path_exists fs p = false ->
  validate (FileValidator false content_validator) p
    = ([(FileValidator false content_validator, p)], Return tt)
  /\ validate (FileValidator true content_validator) p
    = ([(FileValidator true content_validator, p)],
       Raise (ValidationError (FileShouldExist p))).
Proof.
  intros H. simpl. unfold FileValidator_validate. rewrite H. by simpl.
Qed.

(** C8: on a regular file, a [DirValidator] raises the [ValidationError]
    saying that the path is not a directory, whatever [required] and
    [files_scheme] are, and validates no child. *)
Theorem DirValidator_regular_file files_scheme required p :
  is_file fs p = true ->
  validate (DirValidator files_scheme required) p
    = ([(DirValidator files_scheme required, p)],
       Raise (ValidationError (NotADirectory p))).
Proof.
  unfold is_file. intros H. simpl. unfold path_exists, is_dir.
  destruct (fs p); try discriminate. by simpl.
Qed.

(** On a path that is not a directory, a [DirValidator] validates no
    child. *)
Lemma DirValidator_not_dir files_scheme required p :
  is_dir fs p = false ->
  calls (validate (DirValidator files_scheme required) p)
  = [(DirValidator files_scheme required, p)].
Proof.
  intros H. simpl. rewrite H. simpl.
  destruct (path_exists fs p); simpl; [done|]. by destruct required.
Qed.

(** C9: a [FileSchemeValidator] whose scheme is [None] raises
    [AttributeError], which is not a [ValidationError], on every path;
    a [DirValidator] whose [files_scheme] is [None] returns on every
    existing directory. *)
Theorem absent_scheme_asymmetry p required :
  (exists e, outcome (validate (FileSchemeValidator None) p) = Raise e
             /\ e = AttributeError "NoneType" "items"
             /\ is_ValidationError e = false)
  /\ (is_dir fs p = true ->
      outcome (validate (DirValidator None required) p) = Return tt).
Proof.
  split.
  - eexists. by simpl.
  - unfold is_dir. intros H. simpl. unfold path_exists, is_dir.
    destruct (fs p); try discriminate. by simpl.
Qed.

(** The outcome of [HashSumValidator.validate] when no content validator
    is attached, by the kind of the path. *)
Lemma HashSumValidator_outcome required hash_sum hash_type p :
  outcome (validate (HashSumValidator required None hash_sum hash_type) p)
  = match fs p with
    | Missing =>
        if required then Raise (ValidationError (FileShouldExist p))
        else Raise (FileNotFoundError p)
    | RegularFile content =>
        if compare_digest (digest hash_type content) hash_sum
        then Return tt
        else Raise (ValidationError
                      (HashMismatch p (digest hash_type content) hash_sum))
    | _ => Raise (ValidationError (NotARegularFile p))
    end.
Proof.
  simpl. unfold FileValidator_validate, path_exists, is_file, calc_hash, open_rb.
  destruct (fs p); simpl; try done. by destruct required.
Qed.

(** C3: [HashSumValidator.validate] returns exactly when the path is a
    regular file whose digest under the configured algorithm is the
    configured one; on a directory it raises a [ValidationError]. *)
Theorem HashSumValidator_succeeds_iff required hash_sum hash_type p :
  (outcome (validate (HashSumValidator required None hash_sum hash_type) p)
     = Return tt
   <-> path_exists fs p = true /\ is_file fs p = true
       /\ exists content, fs p = RegularFile content
                          /\ digest hash_type content = hash_sum)
  /\ (is_dir fs p = true ->
      outcome (validate (HashSumValidator required None hash_sum hash_type) p)
      = Raise (ValidationError (NotARegularFile p))).
Proof.
  rewrite HashSumValidator_outcome. unfold path_exists, is_file, is_dir.
  split; [split|].
  - destruct (fs p) as [|content| |]; try (by destruct required).
    unfold compare_digest.
    destruct (bytes_eqb _ _) eqn:E; [|done].
    apply bytes_eqb_eq in E. eauto 6.
  - intros (_ & _ & content & -> & <-).
    unfold compare_digest.
    by rewrite (proj2 (bytes_eqb_eq _ _) eq_refl).
  - by destruct (fs p).
Qed.

Lemma FileSchemeValidator_unfold entries root :
  validate (FileSchemeValidator (Some entries)) root
  = ((FileSchemeValidator (Some entries), root)
       :: calls (for_each (child root) entries),
     outcome (for_each (child root) entries)).
Proof.
  simpl. fold (child root). by destruct (for_each _ _).
Qed.

Lemma DirValidator_unfold entries required root :
  is_dir fs root = true ->
  validate (DirValidator (Some entries) required) root
  = ((DirValidator (Some entries) required, root)
       :: calls (for_each (child root) entries),
     outcome (for_each (child root) entries)).
Proof.
  unfold is_dir. intros H. simpl. unfold path_exists, is_dir.
  destruct (fs root); try discriminate. simpl.
  destruct entries as [|e entries]; [done|].
  fold (child root). by destruct (for_each _ _).
Qed.

(** C4: a composite validator validates the entries of its scheme in
    the order of the mapping, each at the root joined with its key.
    When every child returns, all of them have been validated and the
    composite returns; when a child raises, the composite raises the
    same exception, having validated the entries before it and none
    after it. *)
Theorem composite_fail_fast entries root :
  let composite_run (v : PathValidator) (t : list call) (r : result unit) :=
    validate v root = ((v, root) :: t, r) in
  let both (t : list call) (r : result unit) :=
    composite_run (FileSchemeValidator (Some entries)) t r
    /\ (is_dir fs root = true ->
        forall required,
          composite_run (DirValidator (Some entries) required) t r) in
  (Forall (returns (child root)) entries ->
   both (calls_of (child root) entries) (Return tt))
  /\ (forall before e after ex,
        entries = (before ++ e :: after)%list ->
        Forall (returns (child root)) before ->
        outcome (validate (snd e) (root // fst e)) = Raise ex ->
        both (calls_of (child root) before
                ++ calls (validate (snd e) (root // fst e)))%list
             (Raise ex)).
Proof.
  cbv zeta. split.
  - intros Hall. split; [|intros Hdir required].
    + rewrite FileSchemeValidator_unfold.
      by rewrite (for_each_all_return _ _ Hall).
    + rewrite (DirValidator_unfold _ _ _ Hdir).
      by rewrite (for_each_all_return _ _ Hall).
  - intros before e after ex -> Hbefore He.
    pose proof (for_each_first_failure (child root) before e after ex
                  Hbefore He) as Hloop.
    split; [|intros Hdir required].
    + rewrite FileSchemeValidator_unfold. by rewrite Hloop.
    + rewrite (DirValidator_unfold _ _ _ Hdir). by rewrite Hloop.
Qed.

(** What [ContentFileValidator.validate] does with the outcome of
    [from_args] once the content is loaded: only a [TypeError] is turned
    into a [ValidationError]. *)
Lemma ContentFileValidator_loaded scheme content_type p content :
  CONTENT_LOADER decode fs content_type p = Return content ->
  outcome (validate (ContentFileValidator scheme content_type) p)
  = match snd (from_args scheme content) with
    | Return _ => Return tt
    | Raise (TypeError d) =>
        Raise (ValidationError (ContentValidationFailed (TypeError d)))
    | Raise e => Raise e
    end.
Proof.
  intros H. simpl. unfold ContentFileValidator_validate. rewrite H.
  destruct (snd (from_args scheme content)) as [|[]]; done.
Qed.

(** C2, on the code: release information whose [VERSION] is ["2.0"]
    makes [ContentFileValidator.validate] raise the [ValueError] of the
    pattern validator, which is not a [ValidationError]: the handler
    around [from_args] catches [TypeError] only. *)
Theorem ContentFileValidator_version_2_0_not_wrapped content_type p content :
  fs p = RegularFile content ->
  decode content_type content = Some (sample_release_info "2.0") ->
  exists e,
    outcome (validate
               (ContentFileValidator ReleaseInfoContentScheme content_type) p)
    = Raise e
    /\ e = ValueError "VERSION" VERSION_RE "2.0"
    /\ is_ValidationError e = false.
Proof.
  intros Hp Hd. eexists. split; [|done].
  rewrite (ContentFileValidator_loaded _ _ _ (sample_release_info "2.0")).
  - reflexivity.
  - unfold CONTENT_LOADER, open_rb. rewrite Hp. simpl. by rewrite Hd.
Qed.

(** C1, on the code: two calls of [validate] that end with an exception
    other than [ValidationError].  A [ReleaseInfoValidator] on a file
    whose [VERSION] is ["2.0"] lets the [ValueError] of its content
    validator through, and a [HashSumValidator] that is not required
    goes on to hash a path that does not exist. *)
Theorem validate_raises_other_than_ValidationError
    required content_type p content hash_sum hash_type q :
  fs p = RegularFile content ->
  decode content_type content = Some (sample_release_info "2.0") ->
  path_exists fs q = false ->
  outcome (validate (ReleaseInfoValidator required content_type) p)
    = Raise (ValueError "VERSION" VERSION_RE "2.0")
  /\ outcome (validate (HashSumValidator false None hash_sum hash_type) q)
    = Raise (FileNotFoundError q).
Proof.
  intros Hp Hd Hq. split.
  - pose proof (ContentFileValidator_loaded ReleaseInfoContentScheme
                  content_type p (sample_release_info "2.0")) as H.
    unfold ReleaseInfoValidator. simpl in *.
    unfold FileValidator_validate, path_exists, is_file. rewrite Hp. simpl.
    apply H. unfold CONTENT_LOADER, open_rb. rewrite Hp. simpl. by rewrite Hd.
  - rewrite HashSumValidator_outcome. unfold path_exists in Hq.
    by destruct (fs q).
Qed.

End ValidateProperties.

(** ** [from_args] *)

Lemma mem_elem_of k ks : mem k ks = true <-> k ∈ ks.
Proof.
  unfold mem. rewrite existsb_exists. split.
  - intros (x & Hx & E). apply String.eqb_eq in E. subst.
    by apply list_elem_of_In.
  - intros H. exists k. split; [by apply list_elem_of_In | apply String.eqb_refl].
Qed.

(** Popping keys leaves an entry with another key where it is. *)
Lemma pop_unexpected_skip ks u k v d :
  k ∉ ks ->
  pop_unexpected ks u ((k, v) :: d)
  = let '(d', r) := pop_unexpected ks u d in ((k, v) :: d', r).
Proof.
  revert u d. induction ks as [|k0 ks IH]; intros u d Hk; [done|].
  apply not_elem_of_cons in Hk as [Hne Hk]. simpl.
  destruct (String.eqb_spec k0 k) as [->|_]; [done|].
  destruct (dict_pop k0 d) as [[x d']|]; [|done].
  by apply IH.
Qed.

Lemma dict_set_fresh k v u :
  k ∉ keys u -> dict_set k v u = (u ++ [(k, v)])%list.
Proof.
  induction u as [|[k' v'] u IH]; [done|]. simpl.
  intros H. apply not_elem_of_cons in H as [Hne H].
  destruct (String.eqb_spec k k') as [->|_]; [done|]. by rewrite IH.
Qed.

(** The loop of [from_args] on a well-formed dictionary: the declared
    entries stay, the others move to [unexpected_attrs], and no [pop]
    fails. *)
Lemma pop_unexpected_undeclared cls d u :
  dict_wf d ->
  (forall k, k ∈ keys d -> k ∉ keys u) ->
  pop_unexpected (undeclared_keys cls d) u d
  = (declared_part cls d, Some (u ++ undeclared_part cls d)%list).
Proof.
  unfold dict_wf, undeclared_keys, declared_part, undeclared_part.
  revert u. induction d as [|[k v] d IH]; intros u Hnd Hu.
  - simpl. by rewrite app_nil_r.
  - simpl in Hnd. apply NoDup_cons in Hnd as [Hk Hnd].
    simpl. rewrite !filter_cons. simpl.
    destruct (mem k (fields_dict cls)) eqn:E; simpl.
    + repeat case_decide; try done.
      rewrite pop_unexpected_skip.
      * rewrite IH; [done|done|]. intros k' Hk'. apply Hu. simpl. by right.
      * intros Hin. apply list_elem_of_filter in Hin as [_ Hin]. done.
    + repeat case_decide; try done. simpl.
      rewrite String.eqb_refl.
      rewrite dict_set_fresh by (apply Hu; simpl; left).
      rewrite IH; [ by rewrite <- app_assoc | done |].
      intros k' Hk'. unfold keys. rewrite map_app. simpl.
      intros Hin. apply elem_of_app in Hin as [Hin|Hin].
      * eapply Hu; [|exact Hin]. simpl. by right.
      * apply list_elem_of_singleton in Hin. by subst.
Qed.

(** [from_args] on a well-formed dictionary, in one equation. *)
Lemma from_args_dict cls d :
  dict_wf d ->
  from_args cls (VDict d)
  = (VDict (declared_part cls d),
     let* obj := attrs_init cls (Keywords (declared_part cls d)) in
     Return (set_unexpected_attributes obj (undeclared_part cls d))).
Proof.
  intros Hwf. unfold from_args.
  by rewrite pop_unexpected_undeclared by (done || by inversion 2).
Qed.

(** Every key of the declared part names an attribute. *)
Lemma declared_part_keys cls d :
  filter (fun k => negb (mem k (map attr_name (fields cls))))
         (keys (declared_part cls d)) = [].
Proof.
  unfold declared_part, fields_dict.
  induction d as [|[k v] d IH]; [done|].
  rewrite filter_cons. simpl. case_decide as Hk; [|done].
  simpl. rewrite filter_cons. case_decide as Hk'; [|done].
  destruct (mem k _); done.
Qed.

Lemma declared_part_key_in cls d k :
  k ∈ keys (declared_part cls d) -> k ∈ keys d.
Proof.
  unfold keys, declared_part. rewrite !list_elem_of_fmap.
  intros (kv & -> & H). apply list_elem_of_filter in H as [_ H]. eauto.
Qed.

(** A declared attribute without a default and without an entry in the
    dictionary makes the construction fail. *)
Lemma attrs_init_missing cls d a :
  a ∈ fields cls ->
  attr_default a = None ->
  attr_name a ∉ keys d ->
  exists names,
    attrs_init cls (Keywords (declared_part cls d))
    = Raise (TypeError (MissingArguments names))
    /\ attr_name a ∈ names.
Proof.
  intros Ha Hdef Hk. unfold attrs_init, bind_keywords.
  rewrite declared_part_keys.
  match goal with
  | |- context [filter ?P (fields cls)] =>
      assert (a ∈ filter P (fields cls)) as Hin
  end.
  { apply list_elem_of_filter. split; [|done].
    rewrite Hdef. apply andb_prop_intro. split; [|done].
    apply negb_prop_intro. intros Hm. apply Is_true_eq_true in Hm.
    apply mem_elem_of in Hm. by apply Hk, (declared_part_key_in cls). }
  match goal with
  | |- context [filter ?P (fields cls)] => destruct (filter P (fields cls)) eqn:E
  end.
  { by apply elem_of_nil in Hin. }
  simpl. eexists. split; [done|].
  change (attr_name a ∈ map attr_name (a0 :: l)).
  apply list_elem_of_fmap. eauto.
Qed.

Lemma filter_all {A} (P : A -> Prop) `{!forall x, Decision (P x)} (l : list A) :
  (forall x, P x) -> filter P l = l.
Proof.
  intros HP. induction l as [|x l IH]; [done|].
  by rewrite filter_cons_True, IH.
Qed.

Lemma filter_other_keys_id k (d : pydict) :
  k ∉ keys d -> filter (fun kv => fst kv <> k) d = d.
Proof.
  induction d as [|[k0 v0] d IH]; [done|]. simpl.
  intros H. apply not_elem_of_cons in H as [Hne H].
  rewrite filter_cons_True by (simpl; congruence). by rewrite IH.
Qed.

Lemma dict_pop_in k d :
  k ∈ keys d -> dict_wf d ->
  exists v, dict_get k d = Some v
            /\ dict_pop k d = Some (v, filter (fun kv => fst kv <> k) d).
Proof.
  unfold dict_wf. induction d as [|[k0 v0] d IH]; simpl.
  - intros H. by apply elem_of_nil in H.
  - intros Hin Hnd. apply NoDup_cons in Hnd as [Hk0 Hnd].
    destruct (String.eqb_spec k k0) as [->|Hne].
    + exists v0. split; [done|].
      rewrite filter_cons_False by (simpl; intros H; by apply H).
      by rewrite filter_other_keys_id.
    + apply elem_of_cons in Hin as [?|Hin]; [done|].
      destruct (IH Hin Hnd) as (v & Hget & ->).
      exists v. split; [done|].
      by rewrite filter_cons_True by (simpl; congruence).
Qed.

Lemma keys_filter_other k (d : pydict) :
  keys (filter (fun kv => fst kv <> k) d) = filter (fun k' => k' <> k) (keys d).
Proof.
  induction d as [|[k0 v0] d IH]; [done|]. simpl.
  rewrite !filter_cons. simpl. case_decide; simpl; by rewrite IH.
Qed.

Lemma dict_get_filter_other k k' d :
  k' <> k -> dict_get k' (filter (fun kv => fst kv <> k) d) = dict_get k' d.
Proof.
  intros Hne. induction d as [|[k0 v0] d IH]; [done|].
  rewrite filter_cons. simpl. case_decide as Hd; simpl.
  - by rewrite IH.
  - destruct (String.eqb_spec k' k0) as [->|_]; [|done].
    simpl in Hd. by destruct Hne.
Qed.

(** The loop of [from_args] for any order in which the keys are popped. *)
Lemma pop_unexpected_any ks : forall d u,
  NoDup ks -> dict_wf d ->
  (forall k, k ∈ ks -> k ∈ keys d /\ k ∉ keys u) ->
  pop_unexpected ks u d
  = (filter (fun kv => fst kv ∉ ks) d, Some (u ++ entries_of d ks)%list).
Proof.
  induction ks as [|k ks IH]; intros d u Hks Hwf Hin.
  - simpl. rewrite app_nil_r. f_equal.
    symmetry. apply filter_all. intros kv. apply not_elem_of_nil.
  - apply NoDup_cons in Hks as [Hk Hks].
    destruct (Hin k) as [Hkd Hku]; [by left|].
    destruct (dict_pop_in k d Hkd Hwf) as (v & Hget & Hpop).
    simpl. rewrite Hpop, Hget. simpl.
    rewrite dict_set_fresh by done.
    rewrite IH; [| done | |].
    + f_equal.
      * rewrite list_filter_filter. apply list_filter_iff.
        intros kv. rewrite not_elem_of_cons. tauto.
      * f_equal. rewrite <- app_assoc. f_equal. simpl. f_equal.
        unfold entries_of. apply list_fmap_ext. intros i k' Hk'.
        rewrite dict_get_filter_other; [done|].
        intros ->. apply Hk. by eapply list_elem_of_lookup_2.
    + unfold dict_wf. rewrite keys_filter_other.
      by apply NoDup_filter.
    + intros k' Hk'. destruct (Hin k') as [Hd Hu]; [by right|].
      assert (k' <> k) by (intros ->; done).
      split.
      * rewrite keys_filter_other.
        by apply list_elem_of_filter.
      * unfold keys. rewrite fmap_app. simpl.
        rewrite elem_of_app, list_elem_of_singleton. intros [?|?]; done.
Qed.

(** X19: whatever the order in which the set of undeclared keys is
    iterated, the mapping is left with its declared entries and the same
    entries are collected. *)
Lemma pop_unexpected_order cls d ks :
  dict_wf d ->
  ks ≡ₚ undeclared_keys cls d ->
  exists popped,
    pop_unexpected ks [] d = (declared_part cls d, Some popped)
    /\ popped ≡ₚ undeclared_part cls d.
Proof.
  intros Hwf Hperm.
  assert (NoDup (undeclared_keys cls d)) as Hnd
    by (by apply NoDup_filter).
  assert (forall k, k ∈ undeclared_keys cls d -> k ∈ keys d /\ k ∉ keys [])
    as Hin.
  { intros k Hk. apply list_elem_of_filter in Hk as [_ Hk].
    split; [done|apply not_elem_of_nil]. }
  pose proof (pop_unexpected_any _ d [] Hnd Hwf Hin) as Hu.
  rewrite pop_unexpected_undeclared in Hu by (done || by inversion 2).
  injection Hu as Hdecl Hund. simpl in Hund.
  exists (entries_of d ks). split.
  - rewrite pop_unexpected_any; [| by rewrite Hperm | done |].
    + simpl. f_equal. rewrite Hdecl. apply list_filter_iff.
      intros kv. by rewrite Hperm.
    + intros k Hk. apply Hin. by rewrite <- Hperm.
  - rewrite Hund. unfold entries_of. by rewrite Hperm.
Qed.

Lemma declared_part_keys_iff cls d k :
  k ∈ keys (declared_part cls d) <-> k ∈ keys d /\ k ∈ fields_dict cls.
Proof.
  unfold keys, declared_part. rewrite !list_elem_of_fmap. split.
  - intros (kv & -> & H). apply list_elem_of_filter in H as [Hm H].
    split; [eauto|]. apply mem_elem_of. by apply Is_true_eq_true.
  - intros [(kv & -> & H) Hm]. exists kv. split; [done|].
    apply list_elem_of_filter. split; [|done].
    apply Is_true_eq_left. by apply mem_elem_of.
Qed.

Lemma declared_part_get cls d k :
  k ∈ fields_dict cls -> dict_get k (declared_part cls d) = dict_get k d.
Proof.
  intros Hk. apply mem_elem_of in Hk. unfold declared_part.
  induction d as [|[k' v] d IH]; [done|].
  rewrite filter_cons. simpl. case_decide as Hd; simpl.
  - by rewrite IH.
  - destruct (String.eqb_spec k k') as [->|_]; [|done].
    by rewrite Hk in Hd.
Qed.

(** C5: on a mapping, [from_args] builds the instance from the entries
    whose key is declared and keeps every other entry on the instance as
    an unexpected attribute, so undeclared keys never make it raise; a
    declared attribute without default that is absent from the mapping
    makes the construction fail; a value that is neither a mapping nor a
    list raises the [ValidationError] for an unexpected top-level type. *)
Theorem from_args_partitions cls d v :
  (dict_wf d ->
   snd (from_args cls (VDict d))
   = (let* obj := attrs_init cls (Keywords (declared_part cls d)) in
      Return (set_unexpected_attributes obj (undeclared_part cls d)))
   /\ (forall obj,
         snd (from_args cls (VDict d)) = Return obj ->
         get_unexpected_attributes obj = Some (undeclared_part cls d))
   /\ succeeds (snd (from_args cls (VDict d)))
      = succeeds (attrs_init cls (Keywords (declared_part cls d)))
   /\ (forall a,
         a ∈ fields cls -> attr_default a = None -> attr_name a ∉ keys d ->
         exists names,
           snd (from_args cls (VDict d))
           = Raise (TypeError (MissingArguments names))
           /\ attr_name a ∈ names))
  /\ (isinstance v TDict = false -> isinstance v TList = false ->
      from_args cls v
      = (v, Raise (ValidationError (UnexpectedTopLevelType (type_of v))))).
Proof.
  split.
  - intros Hwf. rewrite (from_args_dict _ _ Hwf). simpl.
    split; [done|]. split; [|split].
    + intros obj. destruct (attrs_init _ _); [|done]. by intros [= <-].
    + by destruct (attrs_init _ _).
    + intros a Ha Hdef Hk.
      destruct (attrs_init_missing cls d a Ha Hdef Hk) as (names & -> & Hin).
      eauto.
  - by destruct v.
Qed.

(** C10: [from_args] changes the mapping it is given, in the store and
    so for every holder of a reference to it: the entries with an
    undeclared key are gone, those with a declared key are where they
    were, whether or not the construction succeeds. *)
Theorem from_args_mutates_input cls l (st : gmap loc pyval) d :
  st !! l = Some (VDict d) ->
  dict_wf d ->
  (exists r,
     from_args_at cls l st = Some (<[l := VDict (declared_part cls d)]> st, r))
  /\ (forall k, k ∈ keys (declared_part cls d)
                <-> k ∈ keys d /\ k ∈ fields_dict cls)
  /\ (forall k, k ∈ fields_dict cls ->
                dict_get k (declared_part cls d) = dict_get k d).
Proof.
  intros Hl Hwf. split; [|split].
  - unfold from_args_at. rewrite Hl, (from_args_dict _ _ Hwf). eauto.
  - apply declared_part_keys_iff.
  - apply declared_part_get.
Qed.

(** ** The patterns of [VERSION] and [BUILD] *)

Lemma append_cons c a rest : String c a +:+ rest = String c (a +:+ rest).
Proof. reflexivity. Qed.

Lemma append_nil_r s : s +:+ "" = s.
Proof. induction s as [|c s IH]; [done|]. by rewrite append_cons, IH. Qed.

Lemma re_match_plus lo hi r b s :
  re_match (PlusRange lo hi :: r) b s = true
  <-> exists a rest,
        a <> "" /\ string_forall (in_range lo hi) a = true
        /\ s = a +:+ rest /\ re_match r false rest = true.
Proof.
  simpl. induction s as [|c s IH].
  - split; [done|]. intros (a & rest & Ha & _ & E & _).
    destruct a; [done|discriminate].
  - rewrite andb_true_iff, orb_true_iff, IH. split.
    + intros [Hc [Hr | (a & rest & Ha & Hall & -> & Hr)]].
      * exists (String c ""), s. simpl. rewrite Hc. done.
      * exists (String c a), rest. simpl. rewrite Hc. done.
    + intros (a & rest & Ha & Hall & E & Hr).
      destruct a as [|c' a]; [done|]. rewrite append_cons in E. simpl in Hall.
      injection E as -> ->. apply andb_true_iff in Hall as [Hc Hall].
      split; [done|]. destruct a as [|c'' a].
      * by left.
      * right. exists (String c'' a), rest. done.
Qed.

Lemma re_match_lit c r b s :
  re_match (Lit c :: r) b s = true
  <-> exists s', s = String c s' /\ re_match r false s' = true.
Proof.
  simpl. destruct s as [|c' s].
  - split; [done|]. by intros (? & ? & _).
  - rewrite andb_true_iff, Ascii.eqb_eq. split.
    + intros [-> H]. eauto.
    + intros (s' & [= -> ->] & H). done.
Qed.

Lemma re_match_eol b s : re_match [Eol] b s = true <-> s = "".
Proof.
  simpl. destruct s as [|c s]; [done|]. rewrite andb_false_r. done.
Qed.

Lemma is_digits_spec a :
  is_digits a = true <-> a <> "" /\ string_forall (in_range "0" "9") a = true.
Proof.
  destruct a; [by split; [|intros []]|]. simpl. split; [|by intros []]. done.
Qed.


Lemma VERSION_RE_spec s :
  re_fullmatch VERSION_RE s = true <-> three_dot_separated_digit_runs s.
Proof.
  unfold re_fullmatch, VERSION_RE, three_dot_separated_digit_runs, digit_run.
  change (re_match (Bol :: ?r) true s) with (re_match r true s).
  rewrite re_match_plus. split.
  - intros (a & r1 & Ha & Hda & -> & H).
    apply re_match_lit in H as (r2 & -> & H).
    apply re_match_plus in H as (b & r3 & Hb & Hdb & -> & H).
    apply re_match_lit in H as (r4 & -> & H).
    apply re_match_plus in H as (c & r5 & Hc & Hdc & -> & H).
    apply re_match_eol in H as ->.
    exists a, b, c. rewrite !is_digits_spec, append_nil_r. done.
  - intros (a & b & c & Ha & Hb & Hc & ->).
    apply is_digits_spec in Ha as [? ?], Hb as [? ?], Hc as [? ?].
    exists a, ("." +:+ b +:+ "." +:+ c). repeat split; try done.
    apply re_match_lit. eexists. split; [done|].
    apply re_match_plus. exists b, ("." +:+ c). repeat split; try done.
    apply re_match_lit. eexists. split; [done|].
    apply re_match_plus. exists c, "". rewrite append_nil_r. done.
Qed.

Lemma BUILD_RE_spec s : re_fullmatch BUILD_RE s = true <-> is_digits s = true.
Proof.
  unfold re_fullmatch, BUILD_RE, digit_run.
  change (re_match (Bol :: ?r) true s) with (re_match r true s).
  rewrite re_match_plus, is_digits_spec. split.
  - intros (a & r & Ha & Hd & -> & H). apply re_match_eol in H as ->.
    by rewrite append_nil_r.
  - intros [Ha Hd]. exists s, "". by rewrite append_nil_r.
Qed.

Lemma field_accepts_matches_re name r v :
  field_accepts (attr_ib name (matches_re r) converter_str None) v
  = re_fullmatch r (py_str v).
Proof.
  unfold field_accepts. simpl. by destruct (re_fullmatch _ _).
Qed.

(** C6: the [VERSION] given is accepted exactly when its text is three
    runs of digits separated by dots, the [BUILD] given exactly when its
    text is one or more digits; the construction of release information
    whose other fields are well typed succeeds exactly when both are
    accepted. *)
Theorem release_info_field_formats :
  (forall v, field_accepts VERSION v = true
             <-> three_dot_separated_digit_runs (py_str v))
  /\ (forall v, field_accepts BUILD v = true <-> is_digits (py_str v) = true)
  /\ (forall s, field_accepts VERSION (VStr s) = true
                <-> three_dot_separated_digit_runs s)
  /\ (forall s, field_accepts BUILD (VStr s) = true <-> is_digits s = true)
  /\ (forall name version build os components,
        succeeds (snd (from_args ReleaseInfoContentScheme
                         (release_info (VStr name) version build (VStr os)
                                       (VList components))))
        = field_accepts VERSION version && field_accepts BUILD build)
  /\ map (fun s => field_accepts VERSION (VStr s))
         ["1.2.3"; "1.2"; "1.2.3.4"; "1.a.3"]
     = [true; false; false; false]
  /\ map (fun s => field_accepts BUILD (VStr s)) ["42"; "4a"; ""]
     = [true; false; false].
Proof.
  unfold VERSION, BUILD.
  repeat split; try reflexivity; intros *;
    rewrite ?field_accepts_matches_re;
    try (apply VERSION_RE_spec || apply BUILD_RE_spec ||
         (intros; by (apply VERSION_RE_spec || apply BUILD_RE_spec))).
  unfold release_info, from_args. simpl.
  unfold attrs_init. simpl.
  destruct (re_fullmatch VERSION_RE (py_str version));
    destruct (re_fullmatch BUILD_RE (py_str build)); reflexivity.
Qed.

(** ** The theorems on the sample inputs *)

Local Abbreviation sample_validate :=
  (validate sample_digest sample_decode sample_fs).

Lemma FileValidator_missing_path_witness :
  path_exists sample_fs (path_of ["absent"]) = false
  /\ outcome (sample_validate (FileValidator false None) (path_of ["absent"]))
     = Return tt
  /\ outcome (sample_validate (FileValidator true None) (path_of ["absent"]))
     = Raise (ValidationError (FileShouldExist (path_of ["absent"]))).
Proof.
  split; [reflexivity|].
  destruct (FileValidator_missing_path sample_digest sample_decode sample_fs
              None (path_of ["absent"]) eq_refl) as [H1 H2].
  unfold outcome. rewrite H1, H2. split; reflexivity.
Defined.

Lemma DirValidator_regular_file_witness :
  is_file sample_fs (path_of ["RELEASE.INFO"]) = true
  /\ outcome (sample_validate (DirValidator None false) (path_of ["RELEASE.INFO"]))
     = Raise (ValidationError (NotADirectory (path_of ["RELEASE.INFO"]))).
Proof.
  split; [reflexivity|].
  unfold outcome.
  rewrite (DirValidator_regular_file sample_digest sample_decode sample_fs
             None false (path_of ["RELEASE.INFO"]) eq_refl).
  reflexivity.
Defined.

Lemma absent_scheme_asymmetry_witness :
  is_dir sample_fs (path_of ["repo"]) = true
  /\ outcome (sample_validate (DirValidator None true) (path_of ["repo"]))
     = Return tt.
Proof.
  split; [reflexivity|].
  apply (proj2 (absent_scheme_asymmetry sample_digest sample_decode sample_fs
                  (path_of ["repo"]) true)).
  reflexivity.
Defined.

Lemma HashSumValidator_succeeds_iff_witness :
  is_dir sample_fs (path_of ["repo"]) = true
  /\ outcome (sample_validate (HashSumValidator false None [Byte.x78] MD5)
                (path_of ["repo"]))
     = Raise (ValidationError (NotARegularFile (path_of ["repo"])))
  /\ outcome (sample_validate (HashSumValidator false None [Byte.x78] MD5)
                (path_of ["RELEASE.INFO"]))
     = Return tt.
Proof.
  split; [reflexivity|]. split.
  - apply (proj2 (HashSumValidator_succeeds_iff sample_digest sample_decode
                    sample_fs false [Byte.x78] MD5 (path_of ["repo"]))).
    reflexivity.
  - apply (proj1 (HashSumValidator_succeeds_iff sample_digest sample_decode
                    sample_fs false [Byte.x78] MD5 (path_of ["RELEASE.INFO"]))).
    split; [reflexivity|]. split; [reflexivity|].
    exists [Byte.x78]. split; reflexivity.
Defined.

Lemma composite_fail_fast_witness :
  let root := path_of ["repo"] in
  let v := DirValidator (Some sample_scheme) true in
  is_dir sample_fs root = true
  /\ sample_validate v root
     = ([(v, root);
         (FileValidator true None, path_of ["repo"; "repomd.xml"]);
         (FileValidator true None, path_of ["repo"; "absent"])],
        Raise (ValidationError (FileShouldExist (path_of ["repo"; "absent"])))).
Proof.
  cbv zeta. split; [reflexivity|].
  refine (proj2 (proj2 (composite_fail_fast sample_digest sample_decode
                          sample_fs sample_scheme (path_of ["repo"]))
                   [(path_of ["repomd.xml"], FileValidator true None)]
                   (path_of ["absent"], FileValidator true None)
                   [(path_of ["later"], FileValidator true None)]
                   (ValidationError (FileShouldExist (path_of ["repo"; "absent"])))
                   eq_refl _ eq_refl)
            eq_refl true).
  repeat constructor.
Defined.

Lemma sample_mapping_wf : dict_wf sample_mapping.
Proof. unfold dict_wf. apply (bool_decide_unpack _). reflexivity. Qed.

Lemma from_args_partitions_witness :
  dict_wf sample_mapping
  /\ (exists obj,
        snd (from_args ReleaseInfoContentScheme (VDict sample_mapping))
        = Return obj
        /\ get_unexpected_attributes obj
           = Some [("FOO", VInt 3); ("BAR", VNone)])
  /\ from_args ReleaseInfoContentScheme (VStr "x")
     = (VStr "x", Raise (ValidationError (UnexpectedTopLevelType TStr))).
Proof.
  split; [exact sample_mapping_wf|].
  destruct (from_args_partitions ReleaseInfoContentScheme sample_mapping
              (VStr "x")) as [Hdict Hshape].
  destruct (Hdict sample_mapping_wf) as (Heq & Hget & _).
  split.
  - destruct (snd (from_args ReleaseInfoContentScheme (VDict sample_mapping)))
      as [obj|e] eqn:E.
    + exists obj. split; [reflexivity|]. apply Hget. reflexivity.
    + exfalso. vm_compute in E. discriminate E.
  - apply Hshape; reflexivity.
Defined.

Lemma from_args_mutates_input_witness :
  let st : gmap loc pyval := {[ 1%positive := VDict sample_mapping ]} in
  exists r,
    from_args_at ReleaseInfoContentScheme 1%positive st
    = Some ({[ 1%positive :=
                 VDict [("NAME", VStr "x"); ("VERSION", VStr "2.0.1");
                        ("BUILD", VInt 15); ("OS", VStr "linux");
                        ("COMPONENTS", VList [VStr "a"; VStr "b"])] ]}, r).
Proof.
  cbv zeta.
  destruct (from_args_mutates_input ReleaseInfoContentScheme 1%positive
              {[ 1%positive := VDict sample_mapping ]} sample_mapping
              (lookup_singleton_eq _ _) sample_mapping_wf)
    as [[r Hr] _].
  exists r. rewrite Hr. by rewrite insert_singleton_eq.
Defined.

Lemma ContentFileValidator_version_2_0_not_wrapped_witness :
  outcome (sample_validate (ContentFileValidator ReleaseInfoContentScheme YAML)
             (path_of ["RELEASE.INFO"]))
  = Raise (ValueError "VERSION" VERSION_RE "2.0").
Proof.
  destruct (ContentFileValidator_version_2_0_not_wrapped sample_digest
              sample_decode sample_fs YAML (path_of ["RELEASE.INFO"])
              [Byte.x78] eq_refl eq_refl) as (e & -> & -> & _).
  reflexivity.
Defined.

Lemma validate_raises_other_than_ValidationError_witness :
  outcome (sample_validate (ReleaseInfoValidator true YAML)
             (path_of ["RELEASE.INFO"]))
    = Raise (ValueError "VERSION" VERSION_RE "2.0")
  /\ outcome (sample_validate (HashSumValidator false None [] MD5)
                (path_of ["absent"]))
    = Raise (FileNotFoundError (path_of ["absent"])).
Proof.
  exact (validate_raises_other_than_ValidationError sample_digest
           sample_decode sample_fs true YAML (path_of ["RELEASE.INFO"])
           [Byte.x78] [] MD5 (path_of ["absent"]) eq_refl eq_refl eq_refl).
Defined.

(** * Further properties *)

Set Warnings "-clear-no-such-hyp".

(** ** Induction on validators, through their schemes *)

Lemma PathValidator_nested_ind (P : PathValidator -> Prop) :
  (forall required, P (FileValidator required None)) ->
  (forall required c, P c -> P (FileValidator required (Some c))) ->
  (forall required, P (DirValidator None required)) ->
  (forall entries required,
     Forall (fun e => P (snd e)) entries ->
     P (DirValidator (Some entries) required)) ->
  P (FileSchemeValidator None) ->
  (forall entries,
     Forall (fun e => P (snd e)) entries -> P (FileSchemeValidator (Some entries))) ->
  (forall required hash_sum hash_type,
     P (HashSumValidator required None hash_sum hash_type)) ->
  (forall required c hash_sum hash_type,
     P c -> P (HashSumValidator required (Some c) hash_sum hash_type)) ->
  (forall scheme content_type, P (ContentFileValidator scheme content_type)) ->
  forall v, P v.
Proof.
  intros HF0 HF1 HD0 HD1 HS0 HS1 HH0 HH1 HC.
  fix IH 1. intros [required [c|]|[entries|] required|[entries|]
                    |required [c|] hash_sum hash_type|scheme content_type].
  - apply HF1, IH.
  - apply HF0.
  - apply HD1. induction entries as [|[k c] entries IHe]; constructor; [apply IH|apply IHe].
  - apply HD0.
  - apply HS1. induction entries as [|[k c] entries IHe]; constructor; [apply IH|apply IHe].
  - apply HS0.
  - apply HH1, IH.
  - apply HH0.
  - apply HC.
Qed.

(** ** The calls of a run *)

Section CallBound.

Variable digest : HashType -> bytes -> bytes.
Variable decode : ContentType -> bytes -> option pyval.

Lemma for_each_calls_bound {A} (body : A -> run) (bound : A -> nat) items :
  Forall (fun x => length (calls (body x)) <= bound x) items ->
  length (calls (for_each body items)) <= list_sum (map bound items).
Proof.
  induction 1 as [|x items Hx _ IH]; [done|]. simpl.
  unfold calls in *.
  destruct (body x) as [t [[]|e]]; simpl in *.
  - destruct (for_each body items) as [t' r]. simpl in *.
    rewrite length_app. lia.
  - lia.
Qed.

(** X1: a run of [validate] makes at least one call and at most as many
    calls as the validator holds validator objects: only declared
    children are visited, whatever the file system holds. *)
Theorem validate_calls_bound fs v :
  forall p, 1 <= length (calls (validate digest decode fs v p)) <= size v.
Proof.
  induction v using PathValidator_nested_ind; intros p;
    unfold calls; simpl; unfold FileValidator_validate.
  - repeat case_match; simplify_eq/=; lia.
  - specialize (IHv p). unfold calls in IHv.
    destruct (validate digest decode fs v p) as [t r]. simpl in IHv.
    repeat case_match; simplify_eq/=; lia.
  - repeat case_match; simplify_eq/=; lia.
  - assert (length (calls (for_each
              (fun e => validate digest decode fs (snd e) (p // fst e)) entries))
            <= list_sum (map (fun e => size (snd e)) entries)) as Hb.
    { apply for_each_calls_bound. eapply Forall_impl; [exact H|].
      intros e He. apply He. }
    unfold calls in Hb.
    destruct (for_each _ entries) as [t r]. simpl in Hb.
    repeat case_match; simplify_eq/=; lia.
  - lia.
  - assert (length (calls (for_each
              (fun e => validate digest decode fs (snd e) (p // fst e)) entries))
            <= list_sum (map (fun e => size (snd e)) entries)) as Hb.
    { apply for_each_calls_bound. eapply Forall_impl; [exact H|].
      intros e He. apply He. }
    unfold calls in Hb.
    destruct (for_each _ entries) as [t r]. simpl in Hb.
    repeat case_match; simplify_eq/=; lia.
  - repeat case_match; simplify_eq/=; lia.
  - specialize (IHv p). unfold calls in IHv.
    destruct (validate digest decode fs v p) as [t r]. simpl in IHv.
    repeat case_match; simplify_eq/=; lia.
  - lia.
Qed.

End CallBound.

Section Frame.

Variable digest : HashType -> bytes -> bytes.
Variable decode : ContentType -> bytes -> option pyval.
Variables fs1 fs2 : filesystem.

Lemma agree_app l1 l2 :
  agree fs1 fs2 (l1 ++ l2) <-> agree fs1 fs2 l1 /\ agree fs1 fs2 l2.
Proof.
  unfold agree. setoid_rewrite elem_of_app. naive_solver.
Qed.

Lemma agree_cons p l :
  agree fs1 fs2 (p :: l) <-> fs1 p = fs2 p /\ agree fs1 fs2 l.
Proof.
  unfold agree. setoid_rewrite elem_of_cons. naive_solver.
Qed.

Lemma for_each_agree {A} (body1 body2 : A -> run) items :
  Forall (fun x => agree fs1 fs2 (map snd (calls (body1 x))) ->
                   body2 x = body1 x) items ->
  agree fs1 fs2 (map snd (calls (for_each body1 items))) ->
  for_each body2 items = for_each body1 items.
Proof.
  induction 1 as [|x items Hx _ IH]; [done|]. simpl. unfold calls in *.
  destruct (body1 x) as [t [[]|e]] eqn:E; simpl in *.
  - destruct (for_each body1 items) as [t' r] eqn:E'. simpl in *.
    rewrite map_app, agree_app. intros [Ht Ht'].
    rewrite (Hx Ht), (IH Ht'). done.
  - intros Ht. by rewrite (Hx Ht).
Qed.

Ltac frame_unfold :=
  unfold calls; simpl;
  unfold FileValidator_validate, ContentFileValidator_validate,
    CONTENT_LOADER, calc_hash, open_rb, path_exists, is_file, is_dir.

(** X2: [validate] looks at no path other than those of the calls it
    logs: on a file system that agrees with the first on these paths,
    the run is the same, calls and outcome. *)
Theorem validate_reads_logged_paths_only v :
  forall p,
    agree fs1 fs2 (map snd (calls (validate digest decode fs1 v p))) ->
    validate digest decode fs2 v p = validate digest decode fs1 v p.
Proof.
  induction v using PathValidator_nested_ind; intros p.
  - frame_unfold. destruct required, (fs1 p) eqn:E1; simpl;
      intros [Hp Ht]%agree_cons; rewrite <- Hp, E1; done.
  - frame_unfold. specialize (IHv p). unfold calls in IHv.
    destruct (validate digest decode fs1 v p) as [t r].
    destruct required, (fs1 p) eqn:E1; simpl;
      intros [Hp Ht]%agree_cons; rewrite <- Hp, E1; simpl; try done;
      by rewrite IHv.
  - frame_unfold. destruct required, (fs1 p) eqn:E1; simpl;
      intros [Hp Ht]%agree_cons; rewrite <- Hp, E1; done.
  - destruct (is_dir fs1 p) eqn:Hdir.
    + rewrite (DirValidator_unfold digest decode fs1 _ _ _ Hdir).
      intros [Hp Ht]%agree_cons. cbn [snd] in Hp.
      rewrite (DirValidator_unfold digest decode fs2)
        by (unfold is_dir in *; by rewrite <- Hp).
      unfold child in *.
      rewrite (for_each_agree
                 (fun e => validate digest decode fs1 (snd e) (p // fst e))
                 (fun e => validate digest decode fs2 (snd e) (p // fst e))
                 entries); [done| |exact Ht].
      eapply Forall_impl; [exact H|]. intros x Hx. apply Hx.
    + frame_unfold. unfold is_dir in Hdir.
      destruct required, (fs1 p) eqn:E1; try discriminate; simpl;
        intros [Hp Ht]%agree_cons; rewrite <- Hp, E1; done.
  - done.
  - rewrite !FileSchemeValidator_unfold.
    intros [Hp Ht]%agree_cons. cbn [snd] in Hp.
    unfold child in *.
      rewrite (for_each_agree
                 (fun e => validate digest decode fs1 (snd e) (p // fst e))
                 (fun e => validate digest decode fs2 (snd e) (p // fst e))
                 entries); [done| |exact Ht].
    eapply Forall_impl; [exact H|]. intros x Hx. apply Hx.
  - frame_unfold. destruct required, (fs1 p) eqn:E1; simpl;
      intros [Hp Ht]%agree_cons; rewrite <- Hp, E1; done.
  - frame_unfold. specialize (IHv p). unfold calls in IHv.
    destruct (validate digest decode fs1 v p) as [t r].
    destruct required, (fs1 p) eqn:E1; simpl;
      intros [Hp Ht]%agree_cons; rewrite <- Hp, E1; simpl; try done;
      by rewrite IHv.
  - frame_unfold. intros [Hp _]%agree_cons. by rewrite <- Hp.
Qed.

End Frame.

(** ** Outcomes of the validators and of the presets *)

Section Outcomes.

Variable digest : HashType -> bytes -> bytes.
Variable decode : ContentType -> bytes -> option pyval.
Variable fs : filesystem.

Local Abbreviation validate := (validate digest decode fs).

(** X3: on a path that exists, [required] changes nothing: two file,
    directory or hash-sum validators that differ in [required] only have
    the same outcome and validate the same children. *)
Theorem required_matters_only_when_missing r1 r2 cv sch hash_sum hash_type p :
  path_exists fs p = true ->
  let same (v1 v2 : PathValidator) :=
    outcome (validate v1 p) = outcome (validate v2 p)
    /\ tail (calls (validate v1 p)) = tail (calls (validate v2 p)) in
  same (FileValidator r1 cv) (FileValidator r2 cv)
  /\ same (DirValidator sch r1) (DirValidator sch r2)
  /\ same (HashSumValidator r1 cv hash_sum hash_type)
          (HashSumValidator r2 cv hash_sum hash_type).
Proof.
  intros Hp. cbv zeta. unfold outcome, calls. simpl.
  unfold FileValidator_validate. rewrite Hp. simpl.
  repeat split; repeat case_match; simplify_eq/=; done.
Qed.


Lemma YumRepoDataValidator_outcome p :
  outcome (validate YumRepoDataValidator p)
  = match fs p with
    | Missing => Raise (ValidationError (FileShouldExist p))
    | Directory =>
        match fs (p // repomd) with
        | Missing => Raise (ValidationError (FileShouldExist (p // repomd)))
        | RegularFile _ => Return tt
        | _ => Raise (ValidationError (NotARegularFile (p // repomd)))
        end
    | _ => Raise (ValidationError (NotADirectory p))
    end.
Proof.
  unfold YumRepoDataValidator, outcome. simpl.
  unfold FileValidator_validate, path_exists, is_file, is_dir. fold repomd.
  destruct (fs p); simpl; try done.
  destruct (fs (p // repomd)); done.
Qed.

(** X5: [YumRepoDataValidator] returns exactly on a directory that holds
    a regular file [repomd.xml], and otherwise raises a
    [ValidationError]. *)
Theorem YumRepoDataValidator_returns_iff p :
  (outcome (validate YumRepoDataValidator p) = Return tt
   <-> is_dir fs p = true /\ is_file fs (p // repomd) = true)
  /\ (outcome (validate YumRepoDataValidator p) = Return tt
      \/ exists r, outcome (validate YumRepoDataValidator p)
                   = Raise (ValidationError r)).
Proof.
  rewrite YumRepoDataValidator_outcome. unfold is_dir, is_file.
  split.
  - destruct (fs p); try by (split; [|intros []]).
    destruct (fs (p // repomd)); by (split; [|intros []]).
  - destruct (fs p); eauto. destruct (fs (p // repomd)); eauto.
Qed.

Lemma FileValidator_regular_file required c p content :
  fs p = RegularFile content ->
  validate (FileValidator required (Some c)) p
  = ((FileValidator required (Some c), p) :: calls (validate c p),
     outcome (validate c p)).
Proof.
  intros Hp. simpl. unfold FileValidator_validate, path_exists, is_file.
  rewrite Hp. simpl. by destruct (validate c p).
Qed.

End Outcomes.

(** ** What scheme construction raises *)

Lemma run_validator_raises field v x e :
  run_validator field v x = Raise e ->
  is_TypeError e = true \/ pattern_failure e.
Proof.
  induction v as [t|r|v IH]; simpl.
  - destruct (isinstance x t); [done|]. intros [= <-]. by left.
  - destruct x; try (intros [= <-]; by left).
    destruct (re_fullmatch r s) eqn:E; [done|]. intros [= <-].
    right. by exists field, r, s.
  - destruct x; try done; apply IH.
Qed.

Lemma run_validators_raises avs e :
  run_validators avs = Raise e ->
  is_TypeError e = true \/ pattern_failure e.
Proof.
  induction avs as [|[a v] avs IH]; [done|]. simpl.
  destruct (run_validator _ _ _) eqn:E; simpl.
  - apply IH.
  - intros [= <-]. by eapply run_validator_raises.
Qed.

Lemma attrs_init_raises cls a e :
  attrs_init cls a = Raise e ->
  is_TypeError e = true \/ pattern_failure e.
Proof.
  unfold attrs_init.
  destruct (match a with
            | Positional args => bind_positional (fields cls) args
            | Keywords kw => bind_keywords (fields cls) kw
            end) as [bound|e'] eqn:Eb; simpl.
  - destruct (run_validators _) eqn:Ev; simpl; [done|].
    intros [= <-]. by eapply run_validators_raises.
  - intros [= <-]. left.
    destruct a; unfold bind_positional, bind_keywords in Eb;
      repeat case_match; by simplify_eq.
Qed.

Lemma from_args_raises cls v e :
  (forall d, v = VDict d -> dict_wf d) ->
  snd (from_args cls v) = Raise e ->
  is_TypeError e = true \/ pattern_failure e
  \/ e = ValidationError (UnexpectedTopLevelType (type_of v)).
Proof.
  intros Hwf.
  destruct v as [| | | |l|d]; simpl; try (intros [= <-]; by auto).
  - destruct (attrs_init cls (Positional l)) eqn:E; simpl; [done|].
    intros [= <-]. apply attrs_init_raises in E. tauto.
  - fold (from_args cls (VDict d)). rewrite from_args_dict by auto. simpl.
    destruct (attrs_init _ _) eqn:E; simpl; [done|].
    intros [= <-]. apply attrs_init_raises in E. tauto.
Qed.

Lemma release_info_construction name version build os components :
  succeeds (snd (from_args ReleaseInfoContentScheme
                   (release_info (VStr name) version build (VStr os)
                                 (VList components))))
  = field_accepts VERSION version && field_accepts BUILD build.
Proof.
  unfold VERSION, BUILD. rewrite !field_accepts_matches_re.
  unfold release_info, from_args. simpl.
  unfold attrs_init. simpl.
  destruct (re_fullmatch VERSION_RE (py_str version));
    destruct (re_fullmatch BUILD_RE (py_str build)); reflexivity.
Qed.


Section ContentOutcomes.

Variable digest : HashType -> bytes -> bytes.
Variable decode : ContentType -> bytes -> option pyval.
Variable fs : filesystem.

Local Abbreviation validate := (validate digest decode fs).

(** X6: when the decoders give well-formed mappings, the only exceptions
    [ContentFileValidator.validate] raises are [ValidationError] and the
    [ValueError] of a pattern that the text does not match; failures of
    the loader, missing or surplus fields and wrongly typed fields all
    come out as [ValidationError]. *)
Theorem ContentFileValidator_raises scheme content_type p e :
  (forall content d, decode content_type content = Some (VDict d) -> dict_wf d) ->
  outcome (validate (ContentFileValidator scheme content_type) p) = Raise e ->
  is_ValidationError e = true \/ pattern_failure e.
Proof.
  intros Hwf. unfold outcome. simpl. unfold ContentFileValidator_validate.
  destruct (CONTENT_LOADER decode fs content_type p) as [content|e'] eqn:El.
  - destruct (snd (from_args scheme content)) as [obj|e'] eqn:Ef; [done|].
    apply from_args_raises in Ef.
    + destruct Ef as [Ht|[Hv|Hs]].
      * rewrite Ht. intros [= <-]. by left.
      * destruct Hv as (f & r & s & He & Hr). subst e'. simpl. intros [= <-].
        right. by exists f, r, s.
      * subst e'. simpl. intros [= <-]. by left.
    + intros d ->. unfold CONTENT_LOADER in El.
      destruct (open_rb fs p) as [b|]; simpl in El; [|done].
      destruct (decode content_type b) eqn:Ed; simplify_eq. eauto.
  - intros [= <-]. by left.
Qed.

(** X7: [ReleaseInfoValidator] on a path that does not exist returns
    without loading anything unless it is required; on a file that holds
    release information with well-typed fields it returns exactly when
    the version and the build are accepted; on a file that cannot be
    decoded it raises the [ValidationError] that wraps the decoding
    error. *)
Theorem ReleaseInfoValidator_end_to_end required content_type p :
  (path_exists fs p = false ->
   validate (ReleaseInfoValidator required content_type) p
   = ([(ReleaseInfoValidator required content_type, p)],
      if required then Raise (ValidationError (FileShouldExist p))
      else Return tt))
  /\ (forall content name version build os components,
        fs p = RegularFile content ->
        decode content_type content
        = Some (release_info (VStr name) version build (VStr os)
                             (VList components)) ->
        (outcome (validate (ReleaseInfoValidator required content_type) p)
         = Return tt
         <-> field_accepts VERSION version = true
             /\ field_accepts BUILD build = true))
  /\ (forall content,
        fs p = RegularFile content ->
        decode content_type content = None ->
        outcome (validate (ReleaseInfoValidator required content_type) p)
        = Raise (ValidationError (ContentValidationFailed DecodeError))).
Proof.
  unfold ReleaseInfoValidator. split; [|split].
  - intros Hp. simpl. unfold FileValidator_validate. rewrite Hp. simpl.
    by destruct required.
  - intros content name version build os components Hp Hd.
    rewrite (FileValidator_regular_file digest decode fs _ _ _ _ Hp).
    unfold outcome at 1. cbn [snd].
    rewrite (ContentFileValidator_loaded digest decode fs _ _ _
               (release_info (VStr name) version build (VStr os)
                             (VList components)))
      by (unfold CONTENT_LOADER, open_rb; rewrite Hp; simpl; by rewrite Hd).
    rewrite <- andb_true_iff,
      <- (release_info_construction name version build os components).
    destruct (snd (from_args _ _)) as [|[]]; simpl; split; done.
  - intros content Hp Hd.
    rewrite (FileValidator_regular_file digest decode fs _ _ _ _ Hp).
    unfold outcome. simpl.
    unfold ContentFileValidator_validate, CONTENT_LOADER, open_rb.
    rewrite Hp. simpl. by rewrite Hd.
Qed.

(** Every decoded mapping is well formed. *)
Hypothesis decode_wf :
  forall content_type content d,
    decode content_type content = Some (VDict d) -> dict_wf d.


End ContentOutcomes.

(** ** [from_args] again *)

Lemma declared_part_idem cls d :
  declared_part cls (declared_part cls d) = declared_part cls d.
Proof.
  unfold declared_part.
  induction d as [|[k v] d IH]; [done|].
  rewrite filter_cons. case_decide as Hk; [|done].
  rewrite filter_cons_True by done. by rewrite IH.
Qed.

Lemma undeclared_part_declared cls d :
  undeclared_part cls (declared_part cls d) = [].
Proof.
  unfold undeclared_part, declared_part.
  induction d as [|[k v] d IH]; [done|].
  rewrite filter_cons. simpl. case_decide as Hk; [|done].
  rewrite filter_cons_False; [done|]. simpl in *.
  revert Hk. destruct (mem k (fields_dict cls)); simpl; tauto.
Qed.

Lemma declared_part_wf cls d : dict_wf d -> dict_wf (declared_part cls d).
Proof.
  unfold dict_wf, declared_part. intros Hwf.
  induction d as [|[k v] d IH]; [constructor|].
  simpl in Hwf. apply NoDup_cons in Hwf as [Hk Hwf].
  rewrite filter_cons. case_decide; [|by apply IH].
  simpl. apply NoDup_cons. split; [|by apply IH].
  intros Hin. apply Hk. by eapply declared_part_key_in.
Qed.

(** X9: a second [from_args] on the mapping that a first call has
    changed leaves the mapping as it is and ends as the first call did,
    except that the instance has no unexpected attribute left. *)
Theorem from_args_second_call cls d :
  dict_wf d ->
  let '(data1, r1) := from_args cls (VDict d) in
  from_args cls data1
  = (data1,
     let* obj := r1 in Return (set_unexpected_attributes obj [])).
Proof.
  intros Hwf. rewrite (from_args_dict _ _ Hwf).
  rewrite (from_args_dict _ _ (declared_part_wf cls d Hwf)).
  rewrite declared_part_idem, undeclared_part_declared.
  f_equal. by destruct (attrs_init _ _).
Qed.

Lemma dict_get_None k d : dict_get k d = None <-> k ∉ keys d.
Proof.
  induction d as [|[k' v] d IH]; simpl.
  - split; [intros _; apply not_elem_of_nil|done].
  - rewrite not_elem_of_cons, <- IH.
    destruct (String.eqb_spec k k'); naive_solver.
Qed.

Lemma dict_get_app k d1 d2 :
  dict_get k (d1 ++ d2)
  = match dict_get k d1 with Some v => Some v | None => dict_get k d2 end.
Proof.
  induction d1 as [|[k' v] d1 IH]; [done|]. simpl.
  by destruct (String.eqb k k').
Qed.

Lemma mem_keys_get k d : mem k (keys d) = bool_decide (is_Some (dict_get k d)).
Proof.
  induction d as [|[k' v] d IH]; [done|]. simpl.
  destruct (String.eqb k k'); simpl; [done|exact IH].
Qed.

Lemma zip_positional_bound fs : forall l kw0,
  NoDup (map attr_name fs) ->
  (forall a, a ∈ fs -> attr_name a ∉ keys kw0) ->
  zip_positional fs l
  = map (fun a => (a, bound_value (kw0 ++ zip (map attr_name fs) l) a)) fs.
Proof.
  induction fs as [|a fs IH]; intros l kw0 Hnd Hfresh; [done|].
  simpl in Hnd. apply NoDup_cons in Hnd as [Ha Hnd].
  assert (dict_get (attr_name a) kw0 = None) as Hget
    by (apply dict_get_None, Hfresh; by left).
  destruct l as [|v l]; simpl.
  - unfold bound_value at 1. rewrite app_nil_r, Hget. f_equal.
    rewrite (IH [] kw0 Hnd) by (intros; apply Hfresh; by right).
    destruct fs; simpl; by rewrite ?app_nil_r.
  - unfold bound_value at 1. rewrite dict_get_app, Hget. simpl.
    rewrite String.eqb_refl. f_equal.
    rewrite (IH l (kw0 ++ [(attr_name a, v)])%list Hnd).
    + by rewrite <- app_assoc.
    + intros b Hb. unfold keys. rewrite fmap_app. simpl.
      rewrite elem_of_app, list_elem_of_singleton.
      intros [Hin|Heq].
      * eapply Hfresh; [by right|exact Hin].
      * apply Ha. rewrite <- Heq. apply list_elem_of_fmap. eauto.
Qed.

Lemma bound_value_missing kw a :
  negb (bool_decide (is_Some (bound_value kw a)))
  = negb (mem (attr_name a) (keys kw))
    && negb (bool_decide (is_Some (attr_default a))).
Proof.
  rewrite mem_keys_get. unfold bound_value.
  destruct (dict_get (attr_name a) kw); simpl; [done|].
  by destruct (attr_default a).
Qed.

Lemma filter_map_comm {A B} (g : A -> B) (P : B -> Prop)
    `{!forall x, Decision (P x)} (l : list A) :
  filter P (map g l) = map g (filter (fun a => P (g a)) l).
Proof.
  induction l as [|a l IH]; [done|]. simpl.
  rewrite !filter_cons. case_decide; simpl; by rewrite IH.
Qed.

Lemma missing_bound fs kw :
  filter (fun av : attribute * option pyval =>
            negb (bool_decide (is_Some (snd av))))
         (map (fun a => (a, bound_value kw a)) fs)
  = map (fun a => (a, bound_value kw a))
        (filter (fun a => negb (mem (attr_name a) (keys kw))
                          && negb (bool_decide (is_Some (attr_default a))))
                fs).
Proof.
  rewrite filter_map_comm. f_equal. apply list_filter_iff.
  intros a. simpl. by rewrite bound_value_missing.
Qed.

Lemma omap_bound fs kw :
  omap (fun av : attribute * option pyval => (fun v => (fst av, v)) <$> snd av)
       (map (fun a => (a, bound_value kw a)) fs)
  = omap (fun a => match dict_get (attr_name a) kw with
                   | Some v => Some (a, v)
                   | None => (fun v => (a, v)) <$> attr_default a
                   end) fs.
Proof.
  induction fs as [|a fs IH]; [done|].
  change (map ?g (a :: fs)) with (g a :: map g fs).
  cbn [omap list_omap fst snd]. cbn [omap] in IH. rewrite IH.
  unfold bound_value. destruct (dict_get (attr_name a) kw); [done|].
  by destruct (attr_default a).
Qed.

Lemma bind_keywords_bound fs kw :
  filter (fun k => negb (mem k (map attr_name fs))) (keys kw) = [] ->
  bind_keywords fs kw
  = let z := map (fun a => (a, bound_value kw a)) fs in
    match filter (fun av => negb (bool_decide (is_Some (snd av)))) z with
    | (_ :: _) as missing =>
        Raise (TypeError
                 (MissingArguments (map (fun av => attr_name (fst av)) missing)))
    | [] => Return (omap (fun av => (fun v => (fst av, v)) <$> snd av) z)
    end.
Proof.
  intros Hun. unfold bind_keywords. rewrite Hun. cbv zeta.
  rewrite missing_bound, omap_bound.
  destruct (filter _ fs) as [|a m]; [done|]. simpl.
  do 3 f_equal. by rewrite map_map.
Qed.

Lemma zip_keys_declared fs l :
  filter (fun k => negb (mem k (map attr_name fs)))
         (keys (zip (map attr_name fs) l)) = [].
Proof.
  assert (forall names (l : list pyval) all,
            (forall k, k ∈ names -> k ∈ all) ->
            filter (fun k => negb (mem k all)) (keys (zip names l)) = [])
    as H.
  { induction names as [|k names IH]; intros [|v l'] all Hall; try done.
    simpl. rewrite filter_cons_False.
    - apply IH. intros k' Hk'. apply Hall. by right.
    - simpl. rewrite (proj2 (mem_elem_of k all)); [tauto|]. apply Hall. by left. }
  by apply H.
Qed.

(** X10: for a class whose attribute names are distinct, a list of at
    most as many items as attributes is treated as the mapping that
    binds the attribute names to the items in order; a longer list
    raises [TypeError]; and the list itself is never changed. *)
Theorem from_args_list_as_mapping cls l :
  NoDup (fields_dict cls) ->
  (length l <= length (fields cls) ->
   snd (from_args cls (VList l))
   = snd (from_args cls (VDict (zip (fields_dict cls) l))))
  /\ (length (fields cls) < length l ->
      snd (from_args cls (VList l))
      = Raise (TypeError (TooManyPositional (length (fields cls)) (length l))))
  /\ fst (from_args cls (VList l)) = VList l.
Proof.
  intros Hnd. split; [|split; [|done]].
  - intros Hlen.
    assert (dict_wf (zip (fields_dict cls) l)) as Hwf.
    { unfold dict_wf, keys.
      assert (forall (names : list string) (l : list pyval),
                NoDup names -> NoDup (map fst (zip names l))) as H.
      { induction names as [|k names IH]; intros [|v l'] Hn; simpl;
          try constructor.
        - apply NoDup_cons in Hn as [Hk Hn]. intros Hin. apply Hk.
          apply list_elem_of_fmap in Hin as ([k' v'] & -> & Hin).
          apply elem_of_zip_l in Hin. done.
        - apply IH. by apply NoDup_cons in Hn as [_ Hn]. }
      by apply H. }
    rewrite (from_args_dict _ _ Hwf). simpl.
    assert (declared_part cls (zip (fields_dict cls) l) = zip (fields_dict cls) l
            /\ undeclared_part cls (zip (fields_dict cls) l) = []) as [-> ->].
    { unfold declared_part, undeclared_part.
      assert (forall names (l : list pyval) all,
                (forall k, k ∈ names -> k ∈ all) ->
                filter (fun kv : string * pyval => mem (fst kv) all) (zip names l)
                = zip names l
                /\ filter (fun kv : string * pyval => negb (mem (fst kv) all))
                          (zip names l) = []) as H.
      { induction names as [|k names IH]; intros [|v l'] all Hall; try done.
        simpl. assert (mem k all = true) as Hm
          by (apply mem_elem_of, Hall; by left).
        rewrite filter_cons_True by (simpl; by rewrite Hm).
        rewrite filter_cons_False by (simpl; rewrite Hm; simpl; tauto).
        destruct (IH l' all) as [-> ->]; [|done].
        intros k' Hk'. apply Hall. by right. }
      by apply H. }
    unfold attrs_init.
    rewrite bind_keywords_bound by apply zip_keys_declared.
    unfold bind_positional.
    rewrite (proj2 (Nat.ltb_ge _ _)) by done.
    rewrite (zip_positional_bound (fields cls) l [])
      by (done || intros; apply not_elem_of_nil).
    done.
  - intros Hlen. simpl. unfold attrs_init, bind_positional.
    by rewrite (proj2 (Nat.ltb_lt _ _)) by done.
Qed.

(** ** Numbers in the fields of release information *)

Lemma pretty_N_char_digit x : is_digit (pretty_N_char x) = true.
Proof. unfold pretty_N_char. by repeat case_match. Qed.

Lemma pretty_N_go_digits x : forall s,
  is_digits s = true -> is_digits (pretty_N_go x s) = true.
Proof.
  induction (N.lt_wf_0 x) as [x _ IH]; intros s Hs.
  assert (x = 0 \/ 0 < x)%N as [->|Hx] by lia.
  - by rewrite pretty_N_go_0.
  - rewrite pretty_N_go_step by done. apply IH; [by apply N.div_lt|].
    simpl. rewrite pretty_N_char_digit. simpl.
    destruct s; [done|]. exact Hs.
Qed.

Lemma pretty_N_digits (n : N) : is_digits (pretty n) = true.
Proof.
  unfold pretty, pretty_N. case_decide as Hn; [done|].
  assert (0 < n)%N as Hpos by lia.
  rewrite pretty_N_go_step by done. apply pretty_N_go_digits.
  simpl. by rewrite pretty_N_char_digit.
Qed.

Lemma is_digits_no_dot s : is_digits s = true -> str_contains "." s = false.
Proof.
  intros H. assert (string_forall is_digit s = true) as Hall
    by (destruct s; [done|exact H]).
  clear H. induction s as [|c s IH]; [done|].
  change (is_digit c && string_forall is_digit s = true) in Hall.
  change (Ascii.eqb "." c || str_contains "." s = false).
  apply andb_true_iff in Hall as [Hc Hall]. rewrite (IH Hall), orb_false_r.
  destruct (Ascii.eqb_spec "." c) as [<-|]; [by vm_compute in Hc|done].
Qed.

Lemma str_contains_app c a b :
  str_contains c (a +:+ b) = str_contains c a || str_contains c b.
Proof.
  induction a as [|x a IH]; [done|].
  rewrite append_cons.
  change (Ascii.eqb c x || str_contains c (a +:+ b)
          = Ascii.eqb c x || str_contains c a || str_contains c b).
  by rewrite IH, orb_assoc.
Qed.

Lemma three_runs_dot s :
  three_dot_separated_digit_runs s -> str_contains "." s = true.
Proof.
  intros (a & b & c & _ & _ & _ & ->).
  rewrite str_contains_app, append_cons.
  change (str_contains "." (String "." ?x)) with (Ascii.eqb "." "." || str_contains "." x).
  by rewrite Ascii.eqb_refl, orb_true_r.
Qed.

(** X11: because of [converter=str], a [BUILD] given as an integer is
    accepted exactly when it is not negative, and a [VERSION] given as
    an integer is never accepted. *)
Theorem integer_fields z :
  field_accepts BUILD (VInt z) = (0 <=? z)%Z
  /\ field_accepts VERSION (VInt z) = false.
Proof.
  unfold BUILD, VERSION. rewrite !field_accepts_matches_re. simpl.
  assert (is_digits (pretty z) = (0 <=? z)%Z) as Hd.
  { destruct z as [|q|q]; [done| |done].
    change (pretty (Z.pos q)) with (pretty (N.pos q)). apply pretty_N_digits. }
  split.
  - rewrite <- Hd. apply eq_true_iff_eq. apply BUILD_RE_spec.
  - destruct (re_fullmatch VERSION_RE (pretty z)) eqn:E; [|done].
    apply VERSION_RE_spec, three_runs_dot in E.
    destruct z as [|q|q].
    + done.
    + change (pretty (Z.pos q)) with (pretty (N.pos q)) in E.
      by rewrite (is_digits_no_dot _ (pretty_N_digits _)) in E.
    + change (pretty (Z.neg q)) with ("-" +:+ pretty (N.pos q)) in E.
      rewrite str_contains_app in E. simpl in E.
      by rewrite (is_digits_no_dot _ (pretty_N_digits _)) in E.
Qed.

(** ** The latest release *)

Lemma list_remove_None x l : x ∉ l -> list_remove x l = None.
Proof.
  induction l as [|y l IH]; [done|]. intros [Hne Hin]%not_elem_of_cons. simpl.
  destruct (String.eqb_spec y x) as [->|_]; [done|]. by rewrite IH.
Qed.

Lemma list_remove_Some x l :
  NoDup l -> x ∈ l ->
  exists rest, list_remove x l = Some rest
               /\ forall y, y ∈ rest <-> y ∈ l /\ y <> x.
Proof.
  induction l as [|y l IH]; intros Hnd Hin.
  - by apply elem_of_nil in Hin.
  - apply NoDup_cons in Hnd as [Hy Hnd]. simpl.
    destruct (String.eqb_spec y x) as [->|Hne].
    + exists l. split; [done|]. intros z. rewrite elem_of_cons.
      split; [|naive_solver]. intros Hz. split; [by right|]. by intros ->.
    + apply elem_of_cons in Hin as [->|Hin]; [done|].
      destruct (IH Hnd Hin) as (rest & -> & Hrest).
      exists (y :: rest). split; [done|]. intros z.
      rewrite !elem_of_cons, Hrest. naive_solver.
Qed.

Section LatestReleaseProperties.

Context {V : Type}.
Variable parse : string -> option V.
Variable gt : V -> V -> bool.

(** [>] on parsed versions is a strict order. *)
Hypothesis gt_irrefl : forall v, gt v v = false.
Hypothesis gt_trans :
  forall a b c, gt a b = true -> gt b c = true -> gt a c = true.

Lemma max_loop_spec l : forall maxitem maxval (seen : list string),
  parse maxitem = Some maxval ->
  maxitem ∈ seen ->
  (forall y v, y ∈ seen -> parse y = Some v -> gt v maxval = false) ->
  Forall (fun x => is_Some (parse x)) l ->
  exists r vr,
    max_loop parse gt maxitem maxval l = Done r
    /\ parse r = Some vr
    /\ r ∈ (seen ++ l)%list
    /\ (forall y v, y ∈ (seen ++ l)%list -> parse y = Some v -> gt v vr = false).
Proof.
  induction l as [|x l IH]; intros maxitem maxval seen Hp Hin Hmax Hall.
  - exists maxitem, maxval. rewrite app_nil_r. done.
  - apply Forall_cons in Hall as [[vx Hx] Hall]. simpl. rewrite Hx.
    destruct (gt vx maxval) eqn:Hgt.
    + destruct (IH x vx (seen ++ [x])%list Hx) as (r & vr & Hr & Hpr & Hrin & Hrmax);
        [set_solver| |done|].
      * intros y v Hy Hpy. apply elem_of_app in Hy as [Hy|Hy].
        -- destruct (gt v vx) eqn:E; [|done].
           rewrite <- (Hmax y v Hy Hpy). symmetry. by eapply gt_trans.
        -- apply list_elem_of_singleton in Hy as ->.
           rewrite Hx in Hpy. injection Hpy as <-. apply gt_irrefl.
      * exists r, vr. rewrite <- app_assoc in Hrin, Hrmax. done.
    + destruct (IH maxitem maxval (seen ++ [x])%list Hp) as (r & vr & Hr & Hpr & Hrin & Hrmax);
        [set_solver| |done|].
      * intros y v Hy Hpy. apply elem_of_app in Hy as [Hy|Hy]; [by eapply Hmax|].
        apply list_elem_of_singleton in Hy as ->.
        rewrite Hx in Hpy. by injection Hpy as <-.
      * exists r, vr. rewrite <- app_assoc in Hrin, Hrmax. done.
Qed.

(** X12: when the candidate is among the release names and the other
    names parse, the release chosen is one of the others and no other
    release has a greater version; the candidate itself is never
    parsed. *)
Theorem latest_release_maximal candidate releases :
  NoDup releases ->
  candidate ∈ releases ->
  (exists x, x ∈ releases /\ x <> candidate) ->
  (forall x, x ∈ releases -> x <> candidate -> is_Some (parse x)) ->
  exists r vr,
    latest_release parse gt candidate releases = Done r
    /\ r ∈ releases /\ r <> candidate /\ parse r = Some vr
    /\ forall y v, y ∈ releases -> y <> candidate -> parse y = Some v ->
                   gt v vr = false.
Proof.
  intros Hnd Hc (x & Hx & Hxc) Hparse.
  destruct (list_remove_Some candidate releases Hnd Hc) as (rest & Hrm & Hrest).
  unfold latest_release. rewrite Hrm.
  destruct rest as [|item rest].
  { exfalso. eapply elem_of_nil, Hrest. eauto. }
  assert (is_Some (parse item)) as [val Hval].
  { destruct (proj1 (Hrest item)) as [? ?]; [by left|]. by apply Hparse. }
  simpl. rewrite Hval.
  destruct (max_loop_spec rest item val [item])
    as (r & vr & Hr & Hpr & Hrin & Hmax); [done|by left| | |].
  - intros y v ->%list_elem_of_singleton Hy. rewrite Hval in Hy.
    injection Hy as <-. apply gt_irrefl.
  - apply Forall_forall. intros y Hy.
    destruct (proj1 (Hrest y)) as [? ?]; [by right|]. by apply Hparse.
  - exists r, vr. split; [done|].
    destruct (proj1 (Hrest r) Hrin) as [? ?]. repeat split; try done.
    intros y v Hy Hyc. apply Hmax. simpl. apply Hrest. done.
Qed.

(** X13: the choice fails with the [ValueError] of [list.remove] when
    the candidate is not among the names, with the [ValueError] of [max]
    when the candidate is the only name, and with [InvalidVersion] at
    the first remaining name that does not parse. *)
Theorem latest_release_errors candidate releases :
  (candidate ∉ releases ->
   latest_release parse gt candidate releases = Failed RemoveValueError)
  /\ (NoDup releases -> candidate ∈ releases ->
      (forall x, x ∈ releases -> x = candidate) ->
      latest_release parse gt candidate releases = Failed MaxEmptyValueError)
  /\ (forall before x after,
        list_remove candidate releases = Some (before ++ x :: after)%list ->
        Forall (fun y => is_Some (parse y)) before ->
        parse x = None ->
        latest_release parse gt candidate releases
        = Failed (InvalidVersion x)).
Proof.
  unfold latest_release. split; [|split].
  - intros H. by rewrite list_remove_None.
  - intros Hnd Hc Hall.
    destruct (list_remove_Some candidate releases Hnd Hc) as (rest & -> & Hrest).
    destruct rest as [|y rest]; [done|].
    destruct (proj1 (Hrest y)) as [Hy Hne]; [by left|].
    by destruct Hne; apply Hall.
  - intros before x after -> Hbefore Hx.
    destruct before as [|b before]; simpl.
    + by rewrite Hx.
    + apply Forall_cons in Hbefore as [[vb Hb] Hbefore]. rewrite Hb.
      clear Hb. revert b vb.
      induction Hbefore as [|y before [vy Hy] _ IH]; intros b vb; simpl.
      * by rewrite Hx.
      * rewrite Hy. destruct (gt vy vb); apply IH.
Qed.

End LatestReleaseProperties.

(** ** The network commands *)

Lemma prefix_append_same a x y :
  String.prefix (a +:+ x) (a +:+ y) = String.prefix x y.
Proof.
  induction a as [|c a IH]; [done|]. rewrite !append_cons. simpl.
  destruct (ascii_dec c c); [exact IH|done].
Qed.

Section NetworkConfigProperties.

Variables (node_id : string) (grains : pydict).
Variables (transport_type interface_type network_type : option string).
Variable interfaces : option (list string).

(** X14: [NetworkConfig.run] sends the same values, in the same order,
    to the pillar and to the configuration store, at most three of
    them; when the machine id cannot be read it writes nothing and ends
    with the [KeyError]. *)
Theorem NetworkConfig_writes_paired private :
  let t := fst (NetworkConfig_run node_id grains transport_type
          interface_type network_type interfaces private) in
  map snd (pillar_writes t) = map snd (conf_writes t)
  /\ length (pillar_writes t) <= 3
  /\ (get_machine_id grains node_id = None ->
      pillar_writes t = [] /\ conf_writes t = []
      /\ snd (NetworkConfig_run node_id grains transport_type
                interface_type network_type interfaces private)
         = Failed (MissingKey node_id)).
Proof.
  cbv zeta. unfold NetworkConfig_run.
  destruct (get_machine_id grains node_id) as [m|].
  - destruct transport_type, interface_type, interfaces;
      repeat case_bool_decide; simpl; repeat split; (done || lia).
  - simpl. repeat split; (done || lia).
Qed.

(** X15: every pillar key [NetworkConfig.run] writes lies under the
    network subtree of the node, and every key it sets in the
    configuration store lies under the network subtree of the machine. *)
Theorem NetworkConfig_keys_confined private machine_id :
  get_machine_id grains node_id = Some machine_id ->
  let t := fst (NetworkConfig_run node_id grains transport_type
          interface_type network_type interfaces private) in
  Forall (fun w => String.prefix ("node_info/" +:+ node_id +:+ "/network/")
                                 (fst w) = true)
         (pillar_writes t)
  /\ Forall (fun w => String.prefix
                        ("server_node>" +:+ py_str machine_id +:+ ">network>")
                        (fst w) = true)
            (conf_writes t).
Proof.
  intros Hm. cbv zeta. unfold NetworkConfig_run. rewrite Hm.
  destruct transport_type, interface_type, interfaces, private;
    repeat case_bool_decide; simpl;
    split; repeat constructor; simpl;
    rewrite ?(prefix_append_same "node_info/"),
            ?(prefix_append_same "server_node>"), ?prefix_append_same;
    reflexivity.
Qed.

(** X16: interfaces given with a network type that is neither [data]
    nor [mgmt] are written nowhere: the updates are those of a run
    without interfaces, the error is logged only, and the command still
    ends with [Done]. *)
Theorem NetworkConfig_interfaces_without_network_type private ifaces :
  network_type <> Some "data" ->
  network_type <> Some "mgmt" ->
  let t := fst (NetworkConfig_run node_id grains transport_type
          interface_type network_type (Some ifaces) private) in
  pillar_writes t = pillar_writes (fst (NetworkConfig_run node_id grains transport_type
          interface_type network_type None private))
  /\ conf_writes t = conf_writes (fst (NetworkConfig_run node_id grains transport_type
          interface_type network_type None private))
  /\ snd (NetworkConfig_run node_id grains transport_type
          interface_type network_type (Some ifaces) private) = snd (NetworkConfig_run node_id grains transport_type
          interface_type network_type None private)
  /\ (is_Some (get_machine_id grains node_id) ->
      LogError "Network type should specified for provided interfaces" ∈ t
      /\ last t = Some (LogInfo "Done")).
Proof.
  intros Hd Hm. cbv zeta. unfold NetworkConfig_run.
  rewrite !bool_decide_eq_false_2 by done.
  destruct (get_machine_id grains node_id) as [m|]; simpl.
  - destruct transport_type, interface_type; simpl;
      repeat split; try done; try set_solver.
  - repeat split; try done; by intros [? ?].
Qed.

(** X17: [private] matters for the interfaces of the data network
    only. *)
Theorem NetworkConfig_private_only_for_data :
  network_type <> Some "data" \/ interfaces = None ->
  NetworkConfig_run node_id grains transport_type interface_type network_type
    interfaces true
  = NetworkConfig_run node_id grains transport_type interface_type
      network_type interfaces false.
Proof.
  unfold NetworkConfig_run. intros [H| ->]; [|done].
  destruct interfaces; [|done]. by rewrite !bool_decide_eq_false_2 by done.
Qed.

End NetworkConfigProperties.

Lemma cluster_updates_filter node_id kwargs :
  cluster_updates node_id kwargs
  = cluster_updates node_id (filter (fun kv => truthy (snd kv)) kwargs).
Proof.
  induction kwargs as [|[k v] kwargs IH]; [done|].
  rewrite filter_cons. simpl. destruct (truthy v) eqn:E; simpl.
  - rewrite E. simpl. by rewrite IH.
  - exact IH.
Qed.

Lemma cluster_updates_writes node_id kwargs :
  let kept := filter (fun kv => truthy (snd kv)) kwargs in
  pillar_writes (cluster_updates node_id kwargs)
  = map (fun kv => ("cluster/" +:+ fst kv, snd kv)) kept
  /\ conf_writes (cluster_updates node_id kwargs)
     = map (fun kv => ("cluster>" +:+ fst kv, snd kv)) kept.
Proof.
  cbv zeta. unfold pillar_writes, conf_writes.
  induction kwargs as [|[k v] kwargs [IHp IHc]]; [done|].
  rewrite filter_cons. cbn [cluster_updates snd].
  rewrite !omap_app, IHp, IHc.
  destruct (truthy v) eqn:E; simpl; by rewrite ?E.
Qed.

(** X18: [ClusterNetworkConfig.run] skips every argument whose value is
    falsy ([None], an empty list, an empty string): the run is that of
    the remaining arguments, and the pillar and the configuration store
    get exactly those, in the order given. *)
Theorem ClusterNetworkConfig_falsy_ignored node_id kwargs :
  let kept := filter (fun kv => truthy (snd kv)) kwargs in
  let t := ClusterNetworkConfig_run node_id kwargs in
  t = ClusterNetworkConfig_run node_id kept
  /\ pillar_writes t = map (fun kv => ("cluster/" +:+ fst kv, snd kv)) kept
  /\ conf_writes t = map (fun kv => ("cluster>" +:+ fst kv, snd kv)) kept.
Proof.
  cbv zeta. unfold ClusterNetworkConfig_run. split.
  - by rewrite <- cluster_updates_filter.
  - destruct (cluster_updates_writes node_id kwargs) as [Hp Hc].
    unfold pillar_writes, conf_writes in *.
    rewrite !omap_app, Hp, Hc. simpl. by rewrite !app_nil_r.
Qed.

(** ** The further properties on the sample inputs *)

Lemma sample_decode_wf :
  forall (content_type : ContentType) (content : bytes) d,
    sample_decode content_type content = Some (VDict d) -> dict_wf d.
Proof.
  intros content_type content d [= <-].
  unfold dict_wf. apply (bool_decide_unpack _). reflexivity.
Qed.

Lemma validate_reads_logged_paths_only_witness :
  validate sample_digest sample_decode sample_fs_other
    (DirValidator (Some sample_scheme) true) (path_of ["repo"])
  = sample_validate (DirValidator (Some sample_scheme) true) (path_of ["repo"]).
Proof.
  apply (validate_reads_logged_paths_only sample_digest sample_decode
           sample_fs sample_fs_other).
  intros p Hp. vm_compute in Hp.
  repeat (apply elem_of_cons in Hp as [->|Hp]); try reflexivity.
  by apply elem_of_nil in Hp.
Defined.

Lemma required_matters_only_when_missing_witness :
  path_exists sample_fs (path_of ["repo"]) = true
  /\ outcome (sample_validate (DirValidator (Some sample_scheme) true)
                (path_of ["repo"]))
     = outcome (sample_validate (DirValidator (Some sample_scheme) false)
                  (path_of ["repo"])).
Proof.
  split; [reflexivity|].
  exact (proj1 (proj1 (proj2
           (required_matters_only_when_missing sample_digest sample_decode
              sample_fs true false None (Some sample_scheme) [] MD5
              (path_of ["repo"]) eq_refl)))).
Defined.


Lemma ContentFileValidator_raises_witness :
  is_ValidationError (ValueError "VERSION" VERSION_RE "2.0") = true
  \/ pattern_failure (ValueError "VERSION" VERSION_RE "2.0").
Proof.
  apply (ContentFileValidator_raises sample_digest sample_decode sample_fs
           ReleaseInfoContentScheme YAML (path_of ["RELEASE.INFO"])).
  - apply sample_decode_wf.
  - reflexivity.
Defined.

Lemma ReleaseInfoValidator_end_to_end_witness :
  sample_validate (ReleaseInfoValidator false YAML) (path_of ["absent"])
  = ([(ReleaseInfoValidator false YAML, path_of ["absent"])], Return tt).
Proof.
  apply (proj1 (ReleaseInfoValidator_end_to_end sample_digest sample_decode
                  sample_fs false YAML (path_of ["absent"]))).
  reflexivity.
Defined.


Lemma from_args_second_call_witness :
  dict_wf sample_mapping
  /\ let '(data1, r1) :=
       from_args ReleaseInfoContentScheme (VDict sample_mapping) in
     from_args ReleaseInfoContentScheme data1
     = (data1, let* obj := r1 in Return (set_unexpected_attributes obj [])).
Proof.
  split; [exact sample_mapping_wf|].
  exact (from_args_second_call ReleaseInfoContentScheme sample_mapping
           sample_mapping_wf).
Defined.

Lemma ReleaseInfoContentScheme_names_distinct :
  NoDup (fields_dict ReleaseInfoContentScheme).
Proof. apply (bool_decide_unpack _). reflexivity. Qed.

Lemma from_args_list_as_mapping_witness :
  snd (from_args ReleaseInfoContentScheme (VList [VStr "x"; VStr "1.2.3"]))
  = snd (from_args ReleaseInfoContentScheme
           (VDict [("NAME", VStr "x"); ("VERSION", VStr "1.2.3")])).
Proof.
  apply (proj1 (from_args_list_as_mapping ReleaseInfoContentScheme
                  [VStr "x"; VStr "1.2.3"]
                  ReleaseInfoContentScheme_names_distinct)).
  simpl. lia.
Defined.

Lemma pop_unexpected_order_witness :
  exists popped,
    pop_unexpected ["BAR"; "FOO"] [] sample_mapping
    = (declared_part ReleaseInfoContentScheme sample_mapping, Some popped)
    /\ popped ≡ₚ undeclared_part ReleaseInfoContentScheme sample_mapping.
Proof.
  apply (pop_unexpected_order ReleaseInfoContentScheme sample_mapping
           ["BAR"; "FOO"] sample_mapping_wf).
  change (["BAR"; "FOO"] ≡ₚ ["FOO"; "BAR"]). apply perm_swap.
Defined.

Lemma sample_gt_irrefl : forall v, sample_gt v v = false.
Proof. intros v. apply Nat.ltb_irrefl. Qed.

Lemma sample_gt_trans a b c :
  sample_gt a b = true -> sample_gt b c = true -> sample_gt a c = true.
Proof. unfold sample_gt. rewrite !Nat.ltb_lt. lia. Qed.

Lemma latest_release_maximal_witness :
  exists r vr,
    latest_release sample_parse sample_gt "candidate" sample_releases = Done r
    /\ r ∈ sample_releases /\ r <> "candidate" /\ sample_parse r = Some vr
    /\ forall y v, y ∈ sample_releases -> y <> "candidate" ->
                   sample_parse y = Some v -> sample_gt v vr = false.
Proof.
  apply (latest_release_maximal sample_parse sample_gt sample_gt_irrefl
           sample_gt_trans "candidate" sample_releases).
  - apply (bool_decide_unpack _). reflexivity.
  - apply (bool_decide_unpack _). reflexivity.
  - exists "1.0". split; [by left|discriminate].
  - intros x _ _. by eexists.
Defined.

Lemma latest_release_errors_witness :
  latest_release sample_parse sample_gt "candidate" ["1.0"; "1.2.3"]
  = Failed RemoveValueError.
Proof.
  apply (proj1 (latest_release_errors sample_parse sample_gt "candidate"
                  ["1.0"; "1.2.3"])).
  apply (bool_decide_unpack _). reflexivity.
Defined.

Lemma NetworkConfig_writes_paired_witness :
  snd (NetworkConfig_run "srvnode-2" sample_grains (Some "lnet") None None None
         false)
  = Failed (MissingKey "srvnode-2").
Proof.
  apply (proj2 (proj2 (NetworkConfig_writes_paired "srvnode-2" sample_grains
                         (Some "lnet") None None None false))).
  reflexivity.
Defined.

Lemma NetworkConfig_keys_confined_witness :
  Forall (fun w => String.prefix "node_info/srvnode-1/network/" (fst w) = true)
         (pillar_writes
            (fst (NetworkConfig_run "srvnode-1" sample_grains (Some "lnet")
                    (Some "tcp") (Some "data") (Some ["eth1"; "eth2"]) true))).
Proof.
  apply (proj1 (NetworkConfig_keys_confined "srvnode-1" sample_grains
                  (Some "lnet") (Some "tcp") (Some "data")
                  (Some ["eth1"; "eth2"]) true (VStr "abc123") eq_refl)).
Defined.

Lemma NetworkConfig_interfaces_without_network_type_witness :
  pillar_writes
    (fst (NetworkConfig_run "srvnode-1" sample_grains None None None
            (Some ["eth1"]) false))
  = [].
Proof.
  apply (proj1 (NetworkConfig_interfaces_without_network_type "srvnode-1"
                  sample_grains None None None false ["eth1"]
                  ltac:(discriminate) ltac:(discriminate))).
Defined.

Lemma NetworkConfig_private_only_for_data_witness :
  NetworkConfig_run "srvnode-1" sample_grains None None (Some "mgmt")
    (Some ["eth0"]) true
  = NetworkConfig_run "srvnode-1" sample_grains None None (Some "mgmt")
      (Some ["eth0"]) false.
Proof.
  apply (NetworkConfig_private_only_for_data "srvnode-1" sample_grains None
           None (Some "mgmt") (Some ["eth0"])).
  left. discriminate.
Defined.
